(** * XILLEN security bot: suspicion ledger, spam window and event log

    A shallow embedding of [bot.py].  The Python object [XillenSecurityBot]
    becomes the record [Bot]; its coroutines become functions in a small
    state-and-exception monad [M]; the Discord gateway, the SQLite sink and
    the user and channel caches become the oracle record [Env].

    Conventions.
    - Python [int] is [Z]; a [datetime] is the number of microseconds since a
      fixed epoch, a [timedelta] is a difference of two such numbers.
    - [datetime.datetime.now()] is an input: the operations that read the
      clock take the reading as the argument [now].  Embed timestamps,
      colours and descriptions carry no behaviour and are left out.
    - A Python [str] is its UTF-8 encoding, a [string] of bytes; [len] and
      slices count code points, that is, bytes that are not continuation
      bytes.  [str.lower] and [str.upper] are the interpreter's Unicode
      case mappings: they are not defined in [bot.py] and are taken from
      [Env] like the other things the bot relies on.  [lower] and [upper]
      are what these mappings do to text whose letters are all ASCII. *)

From stdpp Require Import gmap strings list fin_maps sorting.
From Stdlib Require Import Ascii ZArith QArith Lia.

Local Open Scope Z_scope.

(** ** Data model *)

Inductive SecurityLevel := LOW | MEDIUM | HIGH | CRITICAL.

Record SecurityEvent := mkEvent {
  timestamp : Z;
  user_id : Z;
  user_name : string;
  event_type : string;
  description : string;
  level : SecurityLevel;
  channel_id : option Z;
  message_id : option Z
}.

(** One element of [user_data["reasons"]]. *)
Record Reason := mkReason {
  reason : string;
  points : Z;
  reason_timestamp : Z
}.

(** A value of [suspicious_users]: the dict created by [add_suspicion],
    always with the three keys below. *)
Record UserData := mkUserData {
  total_points : Z;
  reasons : list Reason;
  recent_messages : list Z
}.

(** [config.json], read with [dict.get]: an absent key is [None]. *)
Record Config := mkConfig {
  log_channel_id : option Z;
  auto_moderation : option bool;
  suspicious_threshold : option Z
}.

Record Message := mkMessage {
  msg_id : Z;
  author_id : Z;
  author_name : string;
  msg_channel : Z;
  content : string;
  created_at : Z
}.

(** [discord.Status] *)
Inductive Status := online | offline | idle | dnd | invisible.

Record Guild := mkGuild {
  guild_name : string;
  member_count : Z;
  members : list Status
}.

(** Embeds are identified by their title; field names by their role. *)
Inductive AlertTitle :=
  | SuspiciousMessage | SpamDetected | InviteDetected
  | HighSuspicion | NewAccount | LowActivity.

Inductive FieldName :=
  | FAuthor | FChannel | FMessageText | FUser | FPoints | FLastReasons
  | FGuild | FOnline | FPercent.

Inductive FieldValue :=
  | VText (s : string)
  | VInt (n : Z)
  | VMention (id : Z)
  | VRatio (a b : Z)        (* f"{a}/{b}" *)
  | VPercent1 (q : Q).      (* f"{q:.1f}%" *)

Record Embed := mkEmbed {
  title : AlertTitle;
  fields : list (FieldName * FieldValue)
}.

Definition add_field (n : FieldName) (v : FieldValue) (e : Embed) : Embed :=
  mkEmbed (title e) (fields e ++ [(n, v)]).

(** ** Exceptions, I/O and the monad *)

Inductive Exn := Exception (what : string).

(** The calls that leave the process, in the order they were made. *)
Inductive IO :=
  | ChannelSend (channel : Z) (e : Embed)
  | LoggerError (e : Exn)
  | MemberTimeout (user minutes : Z)
  | MessageDelete (message : Z)
  | DbLogEvent (e : SecurityEvent)
  | DbLogMessage (m : Message).

(** What the outside world answers: [None] is a normal return, [Some e] is
    the exception the call raises.  The last two fields are the
    interpreter's [str.lower] and [str.upper]. *)
Record Env := mkEnv {
  get_user : Z → bool;
  get_channel : Z → bool;
  channel_send : Z → Embed → option Exn;
  member_timeout : Z → Z → option Exn;
  message_delete : Z → option Exn;
  db_log_event : SecurityEvent → option Exn;
  db_log_message : Message → option Exn;
  str_lower : string → string;
  str_upper : string → string
}.

(** The bot object.  [io] is not a Python attribute: it is the record of
    the external calls made so far, oldest first. *)
Record Bot := mkBot {
  config : Config;
  security_events : list SecurityEvent;
  suspicious_users : gmap Z UserData;
  io : list IO
}.

Definition set_security_events (f : list SecurityEvent → list SecurityEvent)
    (b : Bot) : Bot :=
  mkBot (config b) (f (security_events b)) (suspicious_users b) (io b).

Definition set_suspicious_users (f : gmap Z UserData → gmap Z UserData)
    (b : Bot) : Bot :=
  mkBot (config b) (security_events b) (f (suspicious_users b)) (io b).

Definition emit (x : IO) (b : Bot) : Bot :=
  mkBot (config b) (security_events b) (suspicious_users b) (io b ++ [x]).

Inductive Result (A : Type) :=
  | Returned (a : A)
  | Raised (e : Exn).
Arguments Returned {A} a.
Arguments Raised {A} e.

Definition M (A : Type) : Type := Bot → Result A * Bot.

#[export] Instance M_ret : MRet M := λ A a b, (Returned a, b).

#[export] Instance M_bind : MBind M := λ A B f m b,
  match m b with
  | (Returned a, b') => f a b'
  | (Raised e, b') => (Raised e, b')
  end.

Definition get : M Bot := λ b, (Returned b, b).
Definition modify (f : Bot → Bot) : M unit := λ b, (Returned tt, f b).

(** An external call: it is recorded, then returns or raises. *)
Definition call (x : IO) (answer : option Exn) : M unit := λ b,
  match answer with
  | None => (Returned tt, emit x b)
  | Some e => (Raised e, emit x b)
  end.

(** [try: m except Exception as e: h e] *)
Definition try_except {A} (m : M A) (h : Exn → M A) : M A := λ b,
  match m b with
  | (Raised e, b') => h e b'
  | r => r
  end.

Definition raise {A} (e : Exn) : M A := λ b, (Raised e, b).

Definition when (c : bool) (m : M unit) : M unit :=
  if c then m else mret tt.

(** ** Python helpers *)

(** [timedelta.seconds] of a difference of [d] microseconds: the seconds
    field of the normalised (days, seconds, microseconds) triple. *)
Definition td_seconds (d : Z) : Z := (d `mod` 86400000000) `div` 1000000.

(** [l[start:]] *)
Definition slice_from {A} (start : Z) (l : list A) : list A :=
  if start <? 0
  then drop (Z.to_nat (Z.max 0 (Z.of_nat (length l) + start))) l
  else drop (Z.to_nat start) l.

(** [sep.join(l)] *)
Fixpoint join (sep : string) (l : list string) : string :=
  match l with
  | [] => ""
  | [x] => x
  | x :: l' => x +:+ sep +:+ join sep l'
  end.

(** Truth value of [config.get("log_channel_id")]. *)
Definition truthy_id (o : option Z) : option Z :=
  match o with
  | Some n => if n =? 0 then None else Some n
  | None => None
  end.

Definition ascii_lower (c : ascii) : ascii :=
  let n := nat_of_ascii c in
  if ((65 <=? n) && (n <=? 90))%nat then ascii_of_nat (n + 32) else c.

Definition ascii_upper (c : ascii) : ascii :=
  let n := nat_of_ascii c in
  if ((97 <=? n) && (n <=? 122))%nat then ascii_of_nat (n - 32) else c.

Fixpoint str_map (f : ascii → ascii) (s : string) : string :=
  match s with
  | EmptyString => EmptyString
  | String c s' => String (f c) (str_map f s')
  end.

(** [s.lower()] and [s.upper()] for a text whose letters are all ASCII:
    the letters change case in place, every other byte stays. *)
Definition lower : string → string := str_map ascii_lower.
Definition upper : string → string := str_map ascii_upper.

(** A continuation byte of UTF-8, [10xxxxxx]: every code point has exactly
    one byte that is not of this form, its first. *)
Definition continuation (c : ascii) : bool :=
  let n := nat_of_ascii c in ((128 <=? n) && (n <? 192))%nat.

(** [len(s)]: the number of code points. *)
Fixpoint py_len (s : string) : nat :=
  match s with
  | EmptyString => 0%nat
  | String c s' => if continuation c then py_len s' else S (py_len s')
  end.

(** [s[:n]]: the first [n] code points. *)
Fixpoint py_take (n : nat) (s : string) : string :=
  match s with
  | EmptyString => EmptyString
  | String c s' =>
      if continuation c then String c (py_take n s')
      else match n with
           | O => EmptyString
           | S n' => String c (py_take n' s')
           end
  end.

(** [needle in hay] *)
Fixpoint str_in (needle hay : string) : bool :=
  String.prefix needle hay ||
  match hay with
  | EmptyString => false
  | String _ hay' => str_in needle hay'
  end.

Definition status_eqb (a b : Status) : bool :=
  match a, b with
  | online, online | offline, offline | idle, idle | dnd, dnd
  | invisible, invisible => true
  | _, _ => false
  end.

Definition Qlt_bool (x y : Q) : bool := negb (Qle_bool y x).

Definition sum_points (l : list Reason) : Z :=
  foldr (λ r acc, points r + acc) 0 l.

(** ** [XillenSecurityBot] *)

Definition is_spam (message : Message) (now : Z) : M bool :=
  let user_id := author_id message in
  self ← get;
  match suspicious_users self !! user_id with
  | None => mret false
  | Some user_data =>
      let recent :=
        List.filter (λ msg, td_seconds (now - msg) <? 10)
                    (recent_messages user_data) in
      if (5 <=? length recent)%nat then mret true
      else
        modify (set_suspicious_users
          <[user_id := mkUserData (total_points user_data) (reasons user_data)
                                  (recent ++ [now])]>);;
        mret false
  end.

Section WithEnv.
Variable env : Env.

Definition send_security_alert (embed : Embed) : M unit :=
  self ← get;
  match truthy_id (log_channel_id (config self)) with
  | Some id =>
      try_except
        (when (get_channel env id)
              (call (ChannelSend id embed) (channel_send env id embed)))
        (λ e, call (LoggerError e) None)
  | None => mret tt
  end.

(** The embed built by [handle_high_suspicion]. *)
Definition high_suspicion_embed (user_id : Z) (user_data : UserData)
    : Embed :=
  let embed := mkEmbed HighSuspicion [] in
  if get_user env user_id then
    let embed := add_field FUser (VMention user_id) embed in
    let embed :=
      add_field FPoints (VInt (total_points user_data)) embed in
    let reasons := reason <$> slice_from (-5) (reasons user_data) in
    add_field FLastReasons (VText (join ", " reasons)) embed
  else embed.

Definition handle_high_suspicion (user_id : Z) (user_data : UserData)
    : M unit :=
  send_security_alert (high_suspicion_embed user_id user_data).

Definition add_suspicion (user_id : Z) (why : string) (pts now : Z)
    : M unit :=
  self ← get;
  when (bool_decide (suspicious_users self !! user_id = None))
       (modify (set_suspicious_users <[user_id := mkUserData 0 [] []]>));;
  self ← get;
  match suspicious_users self !! user_id with
  | None => raise (Exception "KeyError")
  | Some user_data =>
      let user_data :=
        mkUserData (total_points user_data + pts)
                   (reasons user_data ++ [mkReason why pts now])
                   (recent_messages user_data) in
      modify (set_suspicious_users <[user_id := user_data]>);;
      when (default 3 (suspicious_threshold (config self))
              <=? total_points user_data)
           (handle_high_suspicion user_id user_data)
  end.

Definition is_suspicious_content (content : string) : bool :=
  let suspicious_words :=
    ["hack"; "cheat"; "exploit"; "crack"; "bypass";
     "ddos"; "bot"; "script"; "auto"; "macro"] in
  existsb (λ word, str_in word content) suspicious_words.

Definition contains_invite (content : string) : bool :=
  str_in "discord.gg/" content || str_in "discordapp.com/invite/" content.

Definition handle_suspicious_message (message : Message) : M unit :=
  let embed := mkEmbed SuspiciousMessage [] in
  let embed := add_field FAuthor (VMention (author_id message)) embed in
  let embed := add_field FChannel (VMention (msg_channel message)) embed in
  let embed :=
    add_field FMessageText
      (VText (if (100 <? py_len (content message))%nat
              then py_take 100 (content message) +:+ "..."
              else content message))
      embed in
  send_security_alert embed.

Definition handle_spam (message : Message) : M unit :=
  let embed := mkEmbed SpamDetected [] in
  let embed := add_field FAuthor (VMention (author_id message)) embed in
  let embed := add_field FChannel (VMention (msg_channel message)) embed in
  send_security_alert embed;;
  self ← get;
  when (default true (auto_moderation (config self)))
       (call (MemberTimeout (author_id message) 5)
             (member_timeout env (author_id message) 5)).

Definition handle_invite (message : Message) : M unit :=
  let embed := mkEmbed InviteDetected [] in
  let embed := add_field FAuthor (VMention (author_id message)) embed in
  let embed := add_field FChannel (VMention (msg_channel message)) embed in
  send_security_alert embed;;
  self ← get;
  when (default true (auto_moderation (config self)))
       (call (MessageDelete (msg_id message))
             (message_delete env (msg_id message));;
        call (MemberTimeout (author_id message) 10)
             (member_timeout env (author_id message) 10)).

Definition log_message_event (message : Message) : M unit :=
  call (DbLogMessage message) (db_log_message env message).

Definition process_message (message : Message) (now : Z) : M unit :=
  let content := str_lower env (content message) in
  let user_id := author_id message in
  when (is_suspicious_content content)
       (handle_suspicious_message message;;
        add_suspicion user_id "suspicious_content" 1 now);;
  spam ← is_spam message now;
  when spam
       (handle_spam message;;
        add_suspicion user_id "spam" 2 now);;
  when (contains_invite content)
       (handle_invite message;;
        add_suspicion user_id "invite_link" 3 now);;
  log_message_event message.

Definition log_security_event (event : SecurityEvent) : M unit :=
  modify (set_security_events (λ l, l ++ [event]));;
  call (DbLogEvent event) (db_log_event env event);;
  self ← get;
  when (1000 <? length (security_events self))%nat
       (modify (set_security_events (slice_from (-1000)))).

(** [len([m for m in guild.members if m.status != discord.Status.offline])] *)
Definition online_members (guild : Guild) : Z :=
  Z.of_nat (length (List.filter (λ m, negb (status_eqb m offline))
                                (members guild))).

(** [(online_members / total_members) * 100], computed exactly. *)
Definition online_percentage (guild : Guild) : Q :=
  (inject_Z (online_members guild) / inject_Z (member_count guild) * 100)%Q.

(** The embed built by [scan_guild_security]. *)
Definition low_activity_embed (guild : Guild) : Embed :=
  let embed := mkEmbed LowActivity [] in
  let embed := add_field FGuild (VText (guild_name guild)) embed in
  let embed :=
    add_field FOnline
      (VRatio (online_members guild) (member_count guild)) embed in
  add_field FPercent (VPercent1 (online_percentage guild)) embed.

Definition scan_guild_security (guild : Guild) : M unit :=
  let total_members := member_count guild in
  when (0 <? total_members)
    (when (Qlt_bool (online_percentage guild) 10 && (100 <? total_members))
       (send_security_alert (low_activity_embed guild))).

End WithEnv.

(** ** Commands *)

(** What [ctx.send] is given. *)
Inductive LogsReply :=
  | LogsNotFound
  | LogsEmbed (recent_events : list SecurityEvent).

(** [MonitoringCommands.show_logs]; the embed gets one field per element of
    [recent_events], in list order. *)
Definition show_logs (env : Env) (filter_type : string) (limit : Z)
    : M LogsReply :=
  let limit := if 25 <? limit then 25 else limit in
  self ← get;
  let events := security_events self in
  let events :=
    if negb (String.eqb filter_type "all")
    then List.filter
           (λ e, String.eqb (event_type e) (str_upper env filter_type)) events
    else events in
  match events with
  | [] => mret LogsNotFound
  | _ => mret (LogsEmbed (slice_from (- limit) events))
  end.

Inductive ClearReply := SuspicionCleared | NoSuspicion.

(** [AdminCommands.clear_suspicion] *)
Definition clear_suspicion (member_id : Z) : M ClearReply :=
  self ← get;
  if bool_decide (is_Some (suspicious_users self !! member_id)) then
    modify (set_suspicious_users (delete member_id));;
    mret SuspicionCleared
  else mret NoSuspicion.

(** The reads of [SecurityCommands.scan_user]:
    [user_data = suspicious_users.get(member.id, {})], then
    [user_data.get("total_points", 0)] and [user_data.get("reasons")]. *)
Definition lookup_record (member_id : Z) (self : Bot) : option UserData :=
  suspicious_users self !! member_id.

Definition scan_total_points (member_id : Z) (self : Bot) : Z :=
  from_option total_points 0 (lookup_record member_id self).

Definition scan_reasons (member_id : Z) (self : Bot) : list Reason :=
  from_option reasons [] (lookup_record member_id self).

(** The bot right after [__init__]. *)
Definition new_bot (cfg : Config) : Bot := mkBot cfg [] ∅ [].

(** ** Drivers and observations used in the statements *)

(** Consecutive [is_spam] calls for messages of one author, at the given
    clock readings; the answers are collected in call order. *)
Fixpoint is_spam_calls (message : Message) (nows : list Z) : M (list bool) :=
  match nows with
  | [] => mret []
  | now :: nows' =>
      r ← is_spam message now;
      rs ← is_spam_calls message nows';
      mret (r :: rs)
  end.

(** The stored window of a member, empty when there is no record
    ([user_data.get("recent_messages", [])]). *)
Definition stored_window (member_id : Z) (self : Bot) : list Z :=
  from_option recent_messages [] (lookup_record member_id self).

(** One day and ten seconds, in microseconds. *)
Definition day_us : Z := 86400000000.
Definition horizon_us : Z := 10000000.

(** Two readings are [within] the horizon when the second is not earlier
    than the first and less than ten seconds later. *)
Definition within (a b : Z) : Prop := 0 ≤ b - a < horizon_us.

(** The calls that write [suspicious_users]: every handler and command of
    the bot touches the ledger only through these three. *)
Inductive LedgerCall :=
  | AddSuspicion (user_id : Z) (why : string) (pts now : Z)
  | IsSpam (message : Message) (now : Z)
  | ClearSuspicion (member_id : Z).

Definition perform (env : Env) (c : LedgerCall) : M unit :=
  match c with
  | AddSuspicion user_id why pts now => add_suspicion env user_id why pts now
  | IsSpam message now => is_spam message now;; mret tt
  | ClearSuspicion member_id => clear_suspicion member_id;; mret tt
  end.

Fixpoint perform_all (env : Env) (cs : list LedgerCall) : M unit :=
  match cs with
  | [] => mret tt
  | c :: cs' => perform env c;; perform_all env cs'
  end.

(** The [points] arguments given to [add_suspicion] for [user] since the
    last [clear_suspicion] of that user, oldest first; [acc] is what was
    supplied before [cs]. *)
Fixpoint supplied (user : Z) (cs : list LedgerCall) (acc : list Z) : list Z :=
  match cs with
  | [] => acc
  | AddSuspicion u _ pts _ :: cs' =>
      supplied user cs' (if bool_decide (u = user) then acc ++ [pts] else acc)
  | IsSpam _ _ :: cs' => supplied user cs' acc
  | ClearSuspicion u :: cs' =>
      supplied user cs' (if bool_decide (u = user) then [] else acc)
  end.

Definition sum_list (l : list Z) : Z := foldr Z.add 0 l.

(** [self] with further external calls recorded. *)
Definition add_io (trace : list IO) (self : Bot) : Bot :=
  mkBot (config self) (security_events self) (suspicious_users self)
        (io self ++ trace).

(** The external calls of one [send_security_alert]: nothing without a
    log channel id or when the channel is not found; otherwise one
    [channel.send], followed by one [logger.error] when the send raises. *)
Definition alert_io (env : Env) (cfg : Config) (embed : Embed) : list IO :=
  match truthy_id (log_channel_id cfg) with
  | Some id =>
      if get_channel env id then
        ChannelSend id embed ::
        match channel_send env id embed with
        | None => []
        | Some e => [LoggerError e]
        end
      else []
  | None => []
  end.

(** The record [add_suspicion] stores for [user_id]. *)
Definition charged (user_id : Z) (why : string) (pts now : Z) (self : Bot)
    : UserData :=
  mkUserData (scan_total_points user_id self + pts)
             (scan_reasons user_id self ++ [mkReason why pts now])
             (stored_window user_id self).

Definition threshold (self : Bot) : Z :=
  default 3 (suspicious_threshold (config self)).

(** What the scan of [user] reads: the stored total and the points of the
    stored history. *)
Definition ledger_view (user : Z) (self : Bot) : Z * list Z :=
  (scan_total_points user self, points <$> scan_reasons user self).

(** Successive [log_security_event] calls; the first exception ends the
    run. *)
Fixpoint log_all (env : Env) (events : list SecurityEvent) : M unit :=
  match events with
  | [] => mret tt
  | e :: events' => log_security_event env e;; log_all env events'
  end.

(** The embeds handed to [channel.send], oldest first. *)
Definition sent (trace : list IO) : list Embed :=
  omap (λ x, match x with ChannelSend _ e => Some e | _ => None end) trace.

(** ** Concrete configurations used in the examples

    The examples use ASCII text only, on which [str.lower] and [str.upper]
    are [lower] and [upper]. *)

Definition default_config : Config := mkConfig None (Some true) (Some 3).
Definition logging_config : Config := mkConfig (Some 99) (Some true) (Some 3).

(** Every external call succeeds and every lookup hits. *)
Definition calm : Env :=
  mkEnv (λ _, true) (λ _, true) (λ _ _, None) (λ _ _, None)
        (λ _, None) (λ _, None) (λ _, None) lower upper.

(** The user cache misses. *)
Definition uncached : Env :=
  mkEnv (λ _, false) (λ _, true) (λ _ _, None) (λ _ _, None)
        (λ _, None) (λ _, None) (λ _, None) lower upper.

(** [Member.timeout] is refused. *)
Definition forbidden : Env :=
  mkEnv (λ _, true) (λ _, true) (λ _ _, None)
        (λ _ _, Some (Exception "Forbidden"))
        (λ _, None) (λ _, None) (λ _, None) lower upper.

(** The SQLite sink fails. *)
Definition sink_down : Env :=
  mkEnv (λ _, true) (λ _, true) (λ _ _, None) (λ _ _, None)
        (λ _, None) (λ _, Some (Exception "OperationalError"))
        (λ _, Some (Exception "OperationalError")) lower upper.

(** [channel.send] fails. *)
Definition send_down : Env :=
  mkEnv (λ _, true) (λ _, true) (λ _ _, Some (Exception "HTTPException"))
        (λ _ _, None) (λ _, None) (λ _, None) (λ _, None) lower upper.

Definition hello (author : Z) : Message :=
  mkMessage 1 author "member" 5 "hello" 0.

(** Member 7 after one keyword hit: a record with one point and an empty
    window. *)
Definition flagged : Bot :=
  (add_suspicion calm 7 "suspicious_content" 1 0 (new_bot default_config)).2.

(** Member 7 after four more messages, one per second. *)
Definition four_seen : Bot :=
  (is_spam_calls (hello 7) [0; 1000000; 2000000; 3000000] flagged).2.

(** ... and after a fifth. *)
Definition five_seen : Bot :=
  (is_spam (hello 7) 4000000 four_seen).2.

(** Whether a record of [user] exists after the calls [cs], given whether
    one existed before them. *)
Fixpoint has_record (user : Z) (cs : list LedgerCall) (before : bool) : bool :=
  match cs with
  | [] => before
  | AddSuspicion u _ _ _ :: cs' =>
      has_record user cs' (before || bool_decide (u = user))
  | IsSpam _ _ :: cs' => has_record user cs' before
  | ClearSuspicion u :: cs' =>
      has_record user cs' (before && negb (bool_decide (u = user)))
  end.

(** The online members of a guild, counted one at a time: every listed
    member counts, whatever the status, unless it is offline. *)
Fixpoint present (statuses : list Status) : Z :=
  match statuses with
  | [] => 0
  | offline :: rest => present rest
  | (online | idle | dnd | invisible) :: rest => 1 + present rest
  end.

(** The low-activity condition in the words of the specification:
    more than 100 members, and an online fraction below one tenth. *)
Definition low_activity_spec (online_count total : Z) : bool :=
  (100 <? total) && Qlt_bool (inject_Z online_count / inject_Z total) (1 # 10).

(** The events matching a [logs] filter, oldest first. *)
Definition matching (env : Env) (filter_type : string) (self : Bot)
    : list SecurityEvent :=
  if String.eqb filter_type "all" then security_events self
  else List.filter (λ e, String.eqb (event_type e) (str_upper env filter_type))
                   (security_events self).

Definition join_event (t : Z) : SecurityEvent :=
  mkEvent t 7 "member" "MEMBER_JOIN" "New member joined" LOW None None.

Definition leave_event (t : Z) : SecurityEvent :=
  mkEvent t 7 "member" "MEMBER_LEAVE" "Member left" LOW None None.

(** A join at time 1 followed by a leave at time 2. *)
Definition two_events : Bot :=
  (log_all calm [join_event 1; leave_event 2] (new_bot default_config)).2.

(** Twenty-six joins, at times 0 to 25. *)
Definition crowded : Bot :=
  (log_all calm (join_event ∘ Z.of_nat <$> seq 0 26) (new_bot default_config)).2.

(** 1005 joins, at times 0 to 1004. *)
Definition many_joins : list SecurityEvent :=
  join_event ∘ Z.of_nat <$> seq 0 1005.

(** Member 7 with five readings stored and a log channel configured. *)
Definition five_seen_logged : Bot :=
  mkBot logging_config (security_events five_seen) (suspicious_users five_seen)
        [].

Definition busy_guild : Guild :=
  mkGuild "guild" 150 (replicate 10 online ++ replicate 140 offline).

Definition small_guild : Guild :=
  mkGuild "guild" 50 (replicate 2 online ++ replicate 48 offline).

(** 150 members: 10 idle, 5 who do not want to be disturbed, the others
    offline. *)
Definition away_guild : Guild :=
  mkGuild "guild" 150
          (replicate 10 idle ++ replicate 5 dnd ++ replicate 135 offline).

(** Whether [user] has a record. *)
Definition recorded (user : Z) (self : Bot) : bool :=
  bool_decide (is_Some (lookup_record user self)).

(** A log filled to its capacity: the first 1000 of [many_joins]. *)
Definition full_log : Bot :=
  (log_all calm (take 1000 many_joins) (new_bot default_config)).2.

(** [add_suspicion] calls for one user, one per (reason, points, time). *)
Definition charges (user : Z) (args : list (string * Z * Z))
    : list LedgerCall :=
  (λ a, AddSuspicion user a.1.1 a.1.2 a.2) <$> args.

(** ** Further handlers and commands *)

(** A [datetime] with or without a time zone.  [datetime.datetime.now()]
    is naive; subtracting an aware reading from it raises [TypeError]. *)
Inductive Datetime := Naive (t : Z) | Aware (t : Z).

Record Member := mkMember {
  m_id : Z;
  m_name : string;
  m_discriminator : string;
  m_created_at : Datetime
}.

(** [timedelta.days] of a difference of [d] microseconds. *)
Definition td_days (d : Z) : Z := d `div` 86400000000.

(** [datetime.timedelta(minutes=n)]: the constructor raises when the
    normalised day count leaves the range of [timedelta]. *)
Definition timedelta_minutes (n : Z) : M Z :=
  if (-999999999 <=? n `div` 1440) && (n `div` 1440 <=? 999999999)
  then mret (n * 60000000)
  else raise (Exception "OverflowError").

(** What a moderation command sends to the channel it was invoked in. *)
Inductive CommandReply :=
  | WarningIssued (member moderator : Z) (why : string)
  | TimeoutIssued (member moderator minutes : Z) (why : string)
  | TimeoutFailed (e : Exn).

(** The invocation context of a command: its author, and what [ctx.send]
    answers.  These sends go to the invoking channel and are not part of
    [io]; the reply that was delivered is the value of the command. *)
Record Ctx := mkCtx {
  ctx_author : Z;
  ctx_send : CommandReply → option Exn
}.

Definition say (ctx : Ctx) (reply : CommandReply) : M unit :=
  match ctx_send ctx reply with
  | None => mret tt
  | Some e => raise e
  end.

(** The [welcome_message] key of the configuration and the answer of
    [member.send]. *)
Record Welcome := mkWelcome {
  welcome_message : option bool;
  member_send : Z → option Exn
}.

Section Handlers.
Variable env : Env.
(** The name of the account-age field of the new-account embed. *)
Variable account_age_field : FieldName.

(** [member.send] inside [try: ... except: pass]. *)
Definition send_welcome_message (w : Welcome) (member : Member) : M unit :=
  try_except
    (match member_send w (m_id member) with
     | None => mret tt
     | Some e => raise e
     end)
    (λ _, mret tt).

Definition check_new_member (member : Member) (now : Z) : M unit :=
  match m_created_at member with
  | Aware _ => raise (Exception "TypeError")
  | Naive created =>
      let account_age := now - created in
      when (td_days account_age <? 7)
        (let embed := mkEmbed NewAccount [] in
         let embed := add_field FUser (VMention (m_id member)) embed in
         let embed :=
           add_field account_age_field (VInt (td_days account_age)) embed in
         send_security_alert env embed)
  end.

Definition on_member_join (w : Welcome) (member : Member) (now : Z)
    : M unit :=
  when (default true (welcome_message w)) (send_welcome_message w member);;
  check_new_member member now;;
  log_security_event env
    (mkEvent now (m_id member) (m_name member) "MEMBER_JOIN"
       ("New member joined: " +:+ m_name member +:+ "#"
          +:+ m_discriminator member)
       LOW None None).

Definition on_member_remove (member : Member) (now : Z) : M unit :=
  log_security_event env
    (mkEvent now (m_id member) (m_name member) "MEMBER_LEAVE"
       ("Member left: " +:+ m_name member +:+ "#" +:+ m_discriminator member)
       LOW None None).

(** [for guild in self.guilds: ...] inside [try] / [except Exception]. *)
Fixpoint scan_guilds (guilds : list Guild) : M unit :=
  match guilds with
  | [] => mret tt
  | guild :: guilds' => scan_guild_security env guild;; scan_guilds guilds'
  end.

Definition perform_security_scan (guilds : list Guild) : M unit :=
  try_except (scan_guilds guilds) (λ e, call (LoggerError e) None).

(** [ModerationCommands.warn_user] *)
Definition warn_user (ctx : Ctx) (member : Z) (why : string) (now : Z)
    : M CommandReply :=
  let reply := WarningIssued member (ctx_author ctx) why in
  say ctx reply;;
  add_suspicion env member "manual_warning" 2 now;;
  mret reply.

(** [ModerationCommands.timeout_user] *)
Definition timeout_user (ctx : Ctx) (member duration : Z) (why : string)
    (now : Z) : M CommandReply :=
  try_except
    (_ ← timedelta_minutes duration;
     call (MemberTimeout member duration) (member_timeout env member duration);;
     let reply := TimeoutIssued member (ctx_author ctx) duration why in
     say ctx reply;;
     add_suspicion env member "manual_timeout" 3 now;;
     mret reply)
    (λ e, let reply := TimeoutFailed e in say ctx reply;; mret reply).

End Handlers.

(** [AdminCommands.reload_config], given what [load_config] returns. *)
Definition reload_config (loaded : Config) : M unit :=
  modify (λ self, mkBot loaded (security_events self) (suspicious_users self)
                        (io self)).

Inductive ScanStatus := Safe | Suspicious | Dangerous.

Record ScanReport := mkScanReport {
  report_points : Z;
  report_status : ScanStatus;
  report_reasons : option (list string)
}.

(** [SecurityCommands.scan_user]: the fields of the embed it sends. *)
Definition scan_user (member_id : Z) : M ScanReport :=
  self ← get;
  let total_points := scan_total_points member_id self in
  let status :=
    if total_points =? 0 then Safe
    else if total_points <? 3 then Suspicious
    else Dangerous in
  let reasons :=
    match scan_reasons member_id self with
    | [] => None
    | history => Some (reason <$> slice_from (-3) history)
    end in
  mret (mkScanReport total_points status reasons).

(** [event_types[t] = event_types.get(t, 0) + 1] on a dict kept in
    insertion order. *)
Fixpoint bump (t : string) (counts : list (string * Z)) : list (string * Z) :=
  match counts with
  | [] => [(t, 1)]
  | (k, n) :: rest =>
      if String.eqb k t then (k, n + 1) :: rest else (k, n) :: bump t rest
  end.

Definition count_types (events : list SecurityEvent) : list (string * Z) :=
  foldl (λ counts e, bump (event_type e) counts) [] events.

(** [sorted(items, key=lambda x: x[1], reverse=True)]: stable, so an item
    goes before the first item that does not have a larger count. *)
Fixpoint insert_desc (x : string * Z) (l : list (string * Z))
    : list (string * Z) :=
  match l with
  | [] => [x]
  | y :: l' => if y.2 <=? x.2 then x :: y :: l' else y :: insert_desc x l'
  end.

Definition sorted_desc (items : list (string * Z)) : list (string * Z) :=
  foldr insert_desc [] items.

Record StatsReport := mkStatsReport {
  stats_total : Z;
  stats_suspicious : Z;
  stats_top : list (string * Z)
}.

(** [MonitoringCommands.show_stats]: the fields of the embed it sends. *)
Definition show_stats : M StatsReport :=
  self ← get;
  let total_events := Z.of_nat (length (security_events self)) in
  let event_types := count_types (security_events self) in
  mret (mkStatsReport total_events
          (Z.of_nat (size (suspicious_users self)))
          (take 5 (sorted_desc event_types))).

(** ** The bot as a whole *)

(** What the gateway and the moderators make the bot do. *)
Inductive Event :=
  | Said (message : Message) (now : Z)
  | Joined (w : Welcome) (member : Member) (now : Z)
  | Left (member : Member) (now : Z)
  | Scanned (guilds : list Guild)
  | Warned (ctx : Ctx) (member : Z) (why : string) (now : Z)
  | TimedOut (ctx : Ctx) (member duration : Z) (why : string) (now : Z)
  | Cleared (member : Z)
  | Reloaded (loaded : Config).

Definition handle (env : Env) (age_field : FieldName) (ev : Event) : M unit :=
  match ev with
  | Said message now => process_message env message now
  | Joined w member now => on_member_join env age_field w member now
  | Left member now => on_member_remove env member now
  | Scanned guilds => perform_security_scan env guilds
  | Warned ctx member why now => warn_user env ctx member why now;; mret tt
  | TimedOut ctx member duration why now =>
      timeout_user env ctx member duration why now;; mret tt
  | Cleared member => clear_suspicion member;; mret tt
  | Reloaded loaded => reload_config loaded
  end.

(** The bot after the events were handled in turn; a handler that raises
    leaves what it did until then. *)
Definition after (env : Env) (age_field : FieldName) (evs : list Event)
    (self : Bot) : Bot :=
  foldl (λ self ev, (handle env age_field ev self).2) self evs.

(** 1005 members leaving, at times 0 to 1004. *)
Definition departures : list Event :=
  (λ n, Left (mkMember 7 "member" "0001" (Naive 0)) (Z.of_nat n))
  <$> seq 0 1005.

(** The member the event can charge or clear, if any. *)
Definition subject (ev : Event) : option Z :=
  match ev with
  | Said message _ => Some (author_id message)
  | Warned _ member _ _ | TimedOut _ member _ _ _ | Cleared member =>
      Some member
  | Joined _ _ _ | Left _ _ | Scanned _ | Reloaded _ => None
  end.

(** Whether a ledger call is about [user]. *)
Definition about (user : Z) (c : LedgerCall) : bool :=
  match c with
  | AddSuspicion u _ _ _ => bool_decide (u = user)
  | IsSpam message _ => bool_decide (author_id message = user)
  | ClearSuspicion u => bool_decide (u = user)
  end.

(** The readings of a window that [is_spam] keeps at [now]. *)
Definition kept_at (now : Z) (window : list Z) : list Z :=
  List.filter (λ msg, td_seconds (now - msg) <? 10) window.

(** Whether [is_spam] finds a burst in the stored window of the author. *)
Definition burst_at (message : Message) (now : Z) (self : Bot) : bool :=
  (5 <=? length (kept_at now (stored_window (author_id message) self)))%nat.

(** The reasons [process_message] charges, in order. *)
Definition charges_of (env : Env) (message : Message) (now : Z) (self : Bot)
    : list Reason :=
  (if is_suspicious_content (str_lower env (content message))
   then [mkReason "suspicious_content" 1 now] else [])
  ++ (if burst_at message now self then [mkReason "spam" 2 now] else [])
  ++ (if contains_invite (str_lower env (content message))
      then [mkReason "invite_link" 3 now] else []).

(** How a computation ends when [failure] is the first exception raised
    in it, if any. *)
Definition outcome (failure : option Exn) : Result unit :=
  match failure with
  | None => Returned tt
  | Some e => Raised e
  end.

(** The first external call of [process_message] that raises, if any, among
    the calls this message needs: the timeout of a burst and the deletion
    and timeout of an invite, which are made under auto-moderation only,
    and the sink write, which is always made.  ([channel.send] is not among
    them: [send_security_alert] catches what it raises.) *)
Definition message_failure (env : Env) (message : Message) (now : Z)
    (self : Bot) : option Exn :=
  let auto := default true (auto_moderation (config self)) in
  let spam_failure :=
    if burst_at message now self && auto
    then member_timeout env (author_id message) 5
    else None in
  let invite_failure :=
    if contains_invite (str_lower env (content message)) && auto
    then match message_delete env (msg_id message) with
         | Some e => Some e
         | None => member_timeout env (author_id message) 10
         end
    else None in
  match spam_failure with
  | Some e => Some e
  | None =>
      match invite_failure with
      | Some e => Some e
      | None => db_log_message env message
      end
  end.

(** A message with a keyword in upper case, and nothing else. *)
Definition shout (author : Z) : Message :=
  mkMessage 2 author "member" 5 "Nice HACK" 0.

(** A record as the handlers and commands build it: at least one reason,
    each worth 1 to 3 points, and the total their sum. *)
Definition well_charged (d : UserData) : Prop :=
  reasons d ≠ []
  ∧ Forall (λ r, 1 ≤ points r ≤ 3) (reasons d)
  ∧ total_points d = sum_points (reasons d).

(** The event types the handlers record. *)
Definition membership_event (e : SecurityEvent) : Prop :=
  (event_type e = "MEMBER_JOIN" ∨ event_type e = "MEMBER_LEAVE")
  ∧ level e = LOW.

(** The number of events of a type. *)
Definition occurrences (t : string) (events : list SecurityEvent) : Z :=
  Z.of_nat (length (List.filter (λ e, String.eqb (event_type e) t) events)).

(** What a ledger call about a member makes of the member's record. *)
Definition record_after (c : LedgerCall) (r : option UserData)
    : option UserData :=
  match c with
  | AddSuspicion _ why pts now =>
      Some (mkUserData (from_option total_points 0 r + pts)
                       (from_option reasons [] r ++ [mkReason why pts now])
                       (from_option recent_messages [] r))
  | IsSpam _ now =>
      match r with
      | None => None
      | Some d =>
          let kept := kept_at now (recent_messages d) in
          if (5 <=? length kept)%nat then Some d
          else Some (mkUserData (total_points d) (reasons d) (kept ++ [now]))
      end
  | ClearSuspicion _ => None
  end.

(** A computation [preserves] a relation between the bot before and the
    bot after when the relation holds however the computation ends. *)
Definition preserves (R : Bot → Bot → Prop) {A} (m : M A) : Prop :=
  ∀ self, R self (m self).2.

(** The external calls other than [channel.send] and [logger.error]. *)
Definition silent (x : IO) : Prop :=
  match x with
  | ChannelSend _ _ | LoggerError _ => False
  | _ => True
  end.

(** What an event needs to be allowed to do: charge or clear a member,
    write the event log, replace the configuration. *)
Definition permitted (may_charge may_clear : Z → Prop)
    (may_log may_reload : Prop) (ev : Event) : Prop :=
  match ev with
  | Said message _ => may_charge (author_id message)
  | Warned _ member _ _ | TimedOut _ member _ _ _ => may_charge member
  | Cleared member => may_clear member
  | Joined _ _ _ | Left _ _ => may_log
  | Scanned _ => True
  | Reloaded _ => may_reload
  end.

(** The record of [user] is the same. *)
Definition same_record (user : Z) (self self' : Bot) : Prop :=
  lookup_record user self' = lookup_record user self.

Definition same_log (self self' : Bot) : Prop :=
  security_events self' = security_events self.

Definition same_config (self self' : Bot) : Prop :=
  config self' = config self.

(** Without a log channel id, nothing more was sent or logged as failed. *)
Definition unheard (self self' : Bot) : Prop :=
  truthy_id (log_channel_id (config self)) = None →
  truthy_id (log_channel_id (config self')) = None
  ∧ sent (io self') = sent (io self)
  ∧ List.filter (λ x, match x with LoggerError _ => true | _ => false end)
                (io self')
    = List.filter (λ x, match x with LoggerError _ => true | _ => false end)
                  (io self).

(** The history of [user] only grew, by charges of 1 to 3 points. *)
Definition grown (user : Z) (self self' : Bot) : Prop :=
  ∃ more,
    scan_reasons user self' = scan_reasons user self ++ more
    ∧ scan_total_points user self'
      = scan_total_points user self + sum_points more
    ∧ Forall (λ r, 1 ≤ points r ≤ 3) more.

(** Every record is well charged. *)
Definition ledger_ok (self : Bot) : Prop :=
  ∀ user d, lookup_record user self = Some d → well_charged d.

(** Every logged event is a membership event. *)
Definition log_ok (self : Bot) : Prop :=
  Forall membership_event (security_events self).

(** An invariant seen as a relation. *)
Definition keeps (I : Bot → Prop) (self self' : Bot) : Prop :=
  I self → I self'.

(** The events whose handlers write the event log, and the one that
    replaces the configuration. *)
Definition writes_log (ev : Event) : bool :=
  match ev with
  | Joined _ _ _ | Left _ _ => true
  | _ => false
  end.

Definition reloads (ev : Event) : bool :=
  match ev with
  | Reloaded _ => true
  | _ => false
  end.

(** The [logger.error] calls made so far. *)
Definition logged_errors (trace : list IO) : list IO :=
  List.filter (λ x, match x with LoggerError _ => true | _ => false end) trace.

(** A message whose lower-cased text has no keyword and no invite link. *)
Definition clean (env : Env) (message : Message) : bool :=
  negb (is_suspicious_content (str_lower env (content message)))
  && negb (contains_invite (str_lower env (content message))).

(** Events that cannot give [user] a first record: the member's own
    messages are clean, and no moderator warns or times the member out. *)
Definition harmless_for (env : Env) (user : Z) (ev : Event) : Prop :=
  match ev with
  | Said message _ => author_id message = user → clean env message = true
  | Warned _ member _ _ | TimedOut _ member _ _ _ => member ≠ user
  | _ => True
  end.

(** The first thing that goes wrong in the [try] block of
    [timeout_user], if anything does. *)
Definition timeout_failure (env : Env) (ctx : Ctx) (member duration : Z)
    (why : string) : option Exn :=
  if negb ((-999999999 <=? duration `div` 1440)
           && (duration `div` 1440 <=? 999999999))
  then Some (Exception "OverflowError")
  else match member_timeout env member duration with
       | Some e => Some e
       | None =>
           ctx_send ctx (TimeoutIssued member (ctx_author ctx) duration why)
       end.

(** [counts.get(t, 0)] *)
Fixpoint tally (t : string) (counts : list (string * Z)) : Z :=
  match counts with
  | [] => 0
  | (k, n) :: rest => if String.eqb k t then n else tally t rest
  end.

(** Counts do not increase along the list. *)
Definition descending (l : list (string * Z)) : Prop :=
  StronglySorted (λ a b, b.2 ≤ a.2) l.

(** * Properties *)

(** ** The monad *)

Ltac run_monad :=
  unfold when, call, try_except, raise, get, modify, mbind, M_bind, mret,
    M_ret in *;
  cbv beta iota in *.

Lemma bind_returned {A B} (m : M A) (f : A → M B) (self self' : Bot) a :
  m self = (Returned a, self') → (m ≫= f) self = f a self'.
Proof. intros H. unfold mbind, M_bind. by rewrite H. Qed.

Lemma bind_raised {A B} (m : M A) (f : A → M B) (self self' : Bot) e :
  m self = (Raised e, self') → (m ≫= f) self = (Raised e, self').
Proof. intros H. unfold mbind, M_bind. by rewrite H. Qed.

(** ** The clock arithmetic of the window *)

Lemma td_seconds_within_a_day d :
  0 ≤ d < day_us → td_seconds d = d `div` 1000000.
Proof.
  intros H. unfold td_seconds, day_us in *. by rewrite Z.mod_small.
Qed.

Lemma fresh_by_age d :
  0 ≤ d < day_us → (td_seconds d <? 10) = (d <? horizon_us).
Proof.
  intros H. rewrite td_seconds_within_a_day by done.
  unfold horizon_us, day_us in *.
  destruct (Z.ltb_spec (d `div` 1000000) 10), (Z.ltb_spec d 10000000);
    try done; exfalso; Z.div_mod_to_equations; lia.
Qed.

Lemma prune_by_age now (window : list Z) :
  Forall (λ msg, 0 ≤ now - msg < day_us) window →
  List.filter (λ msg, td_seconds (now - msg) <? 10) window
  = List.filter (λ msg, now - msg <? horizon_us) window.
Proof.
  induction 1 as [|msg window Hmsg _ IH]; [done|].
  simpl. rewrite fresh_by_age by done. by rewrite IH.
Qed.

Lemma prune_keeps_all now (window : list Z) :
  Forall (λ msg, 0 ≤ now - msg < horizon_us) window →
  List.filter (λ msg, td_seconds (now - msg) <? 10) window = window.
Proof.
  induction 1 as [|msg window Hmsg _ IH]; [done|].
  simpl. rewrite fresh_by_age by (unfold horizon_us, day_us in *; lia).
  rewrite IH. destruct (Z.ltb_spec (now - msg) horizon_us); [done|lia].
Qed.

Lemma prune_drops_all now (window : list Z) :
  Forall (λ msg, horizon_us ≤ now - msg < day_us) window →
  List.filter (λ msg, td_seconds (now - msg) <? 10) window = [].
Proof.
  induction 1 as [|msg window Hmsg _ IH]; [done|].
  simpl. rewrite fresh_by_age by (unfold horizon_us, day_us in *; lia).
  rewrite IH. destruct (Z.ltb_spec (now - msg) horizon_us); [lia|done].
Qed.

(** ** [is_spam] *)

Lemma is_spam_unknown message now self :
  suspicious_users self !! author_id message = None →
  is_spam message now self = (Returned false, self).
Proof. intros H. unfold is_spam. run_monad. by rewrite H. Qed.

Lemma is_spam_known message now self user_data :
  suspicious_users self !! author_id message = Some user_data →
  is_spam message now self =
    let recent :=
      List.filter (λ msg, td_seconds (now - msg) <? 10)
                  (recent_messages user_data) in
    if (5 <=? length recent)%nat then (Returned true, self)
    else (Returned false,
          set_suspicious_users
            <[author_id message :=
                mkUserData (total_points user_data) (reasons user_data)
                           (recent ++ [now])]> self).
Proof.
  intros H. unfold is_spam. run_monad. rewrite H. cbv zeta.
  by destruct (Nat.leb 5 _).
Qed.

(** C1, as amended.  [is_spam] never raises, whatever the record holds:
    it returns an answer and touches nothing but the window of the author
    (the configuration, the event log, the external calls, the records of
    other members and the author's total and history stay as they were).
    Without a record it answers [False] and stores nothing.  With a record
    whose stored readings are not later than [now] and less than a day
    old, it keeps the readings younger than ten seconds; with five or more
    of them it answers [True] and leaves the record as it was; otherwise
    it stores the kept readings followed by [now] and answers [False]. *)
Theorem is_spam_window (message : Message) (now : Z) (self : Bot) :
  let member := author_id message in
  (∃ answer self',
     is_spam message now self = (Returned answer, self')
     ∧ config self' = config self
     ∧ security_events self' = security_events self
     ∧ io self' = io self
     ∧ (∀ other, other ≠ member →
                 lookup_record other self' = lookup_record other self)
     ∧ scan_total_points member self' = scan_total_points member self
     ∧ scan_reasons member self' = scan_reasons member self
     ∧ (lookup_record member self' = None ↔ lookup_record member self = None))
  ∧ (lookup_record member self = None →
     is_spam message now self = (Returned false, self))
  ∧ (∀ user_data,
       lookup_record member self = Some user_data →
       Forall (λ msg, 0 ≤ now - msg < day_us) (recent_messages user_data) →
       is_spam message now self =
         let kept :=
           List.filter (λ msg, now - msg <? horizon_us)
                       (recent_messages user_data) in
         if (5 <=? length kept)%nat then (Returned true, self)
         else (Returned false,
               set_suspicious_users
                 <[member :=
                     mkUserData (total_points user_data) (reasons user_data)
                                (kept ++ [now])]> self)).
Proof.
  cbv zeta. unfold scan_total_points, scan_reasons, lookup_record.
  split; [|split].
  - destruct (suspicious_users self !! author_id message) as [user_data|] eqn:H.
    + rewrite (is_spam_known _ _ _ _ H). cbv zeta.
      destruct (Nat.leb 5 _).
      * exists true, self. rewrite H. repeat split; done.
      * eexists false, _. split; [done|]. simpl.
        rewrite lookup_insert_eq. simpl. repeat split; try done.
        intros other Hother. by rewrite lookup_insert_ne.
    + rewrite (is_spam_unknown _ _ _ H). exists false, self.
      rewrite H. repeat split; done.
  - apply is_spam_unknown.
  - intros user_data H Hage. rewrite (is_spam_known _ _ _ _ H).
    by rewrite prune_by_age.
Qed.

Lemma is_spam_window_witness :
  Forall (λ msg, 0 ≤ 4000000 - msg < day_us)
         (stored_window (author_id (hello 7)) four_seen)
  ∧ (is_spam (hello 7) 4000000 four_seen).1 = Returned false
  ∧ stored_window 7 (is_spam (hello 7) 4000000 four_seen).2
    = [0; 1000000; 2000000; 3000000; 4000000].
Proof.
  assert (Hrec : lookup_record (author_id (hello 7)) four_seen
                 = Some (mkUserData 1 [mkReason "suspicious_content" 1 0]
                                    [0; 1000000; 2000000; 3000000]))
    by (vm_compute; reflexivity).
  assert (Hage : Forall (λ msg, 0 ≤ 4000000 - msg < day_us)
                        [0; 1000000; 2000000; 3000000]).
  { unfold day_us. repeat constructor; lia. }
  split.
  { unfold stored_window. rewrite Hrec. exact Hage. }
  rewrite (proj2 (proj2 (is_spam_window (hello 7) 4000000 four_seen))
             _ Hrec Hage).
  vm_compute. done.
Defined.

(** C1, as stated, fails.  With four readings stored the call appends a
    fifth, so the resulting window holds five, and still answers [False];
    with five stored it answers [True] and stores nothing; for a member
    without a record it creates no window. *)
Lemma is_spam_claim_fails :
  ((is_spam (hello 7) 4000000 four_seen).1 = Returned false
   ∧ length (stored_window 7 (is_spam (hello 7) 4000000 four_seen).2) = 5%nat)
  ∧ is_spam (hello 7) 5000000 five_seen = (Returned true, five_seen)
  ∧ (is_spam (hello 8) 0 five_seen = (Returned false, five_seen)
     ∧ lookup_record 8 five_seen = None).
Proof. vm_compute. done. Qed.

(** ** Runs of [is_spam] *)

Lemma is_spam_calls_snoc message l t self rs self' r self'' :
  is_spam_calls message l self = (Returned rs, self') →
  is_spam message t self' = (Returned r, self'') →
  is_spam_calls message (l ++ [t]) self = (Returned (rs ++ [r]), self'').
Proof.
  revert self rs. induction l as [|a l IH]; intros self rs Hl Ht; simpl in *.
  - run_monad. injection Hl as <- <-. by rewrite Ht.
  - unfold mbind, M_bind in *.
    destruct (is_spam message a self) as [[r0|e] s1]; [|done].
    destruct (is_spam_calls message l s1) as [[rs0|e] s2] eqn:Hrun; [|done].
    run_monad. injection Hl as <- <-.
    by rewrite (IH _ _ Hrun Ht).
Qed.

(** While fewer than five readings are stored and every reading is within
    the horizon of all later ones, each call answers [False] and the
    window grows by the reading. *)
Lemma is_spam_calls_quiet message nows : ∀ self user_data,
  lookup_record (author_id message) self = Some user_data →
  StronglySorted within (recent_messages user_data ++ nows) →
  (length (recent_messages user_data) + length nows ≤ 5)%nat →
  ∃ self',
    is_spam_calls message nows self
      = (Returned (replicate (length nows) false), self')
    ∧ lookup_record (author_id message) self'
      = Some (mkUserData (total_points user_data) (reasons user_data)
                         (recent_messages user_data ++ nows)).
Proof.
  induction nows as [|now nows IH]; intros self user_data Hrec Hsorted Hlen.
  - exists self. split; [done|]. rewrite Hrec, app_nil_r. by destruct user_data.
  - simpl in Hlen.
    assert (Hkeep : List.filter (λ msg, td_seconds (now - msg) <? 10)
                      (recent_messages user_data) = recent_messages user_data).
    { apply prune_keeps_all. apply Forall_forall. intros msg Hmsg.
      apply (StronglySorted_app_1_elem_of _ _ _ msg now Hsorted); [done|].
      apply list_elem_of_here. }
    pose proof (is_spam_known message now self user_data Hrec) as Hstep.
    cbv zeta in Hstep. rewrite Hkeep in Hstep.
    destruct (Nat.leb_spec 5 (length (recent_messages user_data))); [lia|].
    set (user_data' := mkUserData (total_points user_data) (reasons user_data)
                                  (recent_messages user_data ++ [now])).
    destruct (IH (set_suspicious_users <[author_id message := user_data']> self)
                 user_data') as (self' & Hrun & Hrec').
    + unfold lookup_record. simpl. apply lookup_insert_eq.
    + simpl. by rewrite <- app_assoc.
    + simpl. rewrite length_app. simpl. lia.
    + exists self'. split.
      * simpl. rewrite (bind_returned _ _ _ _ _ Hstep).
        rewrite (bind_returned _ _ _ _ _ Hrun). done.
      * rewrite Hrec'. simpl. by rewrite <- app_assoc.
Qed.

(** C2, as amended.  For a member with a record and an empty window, six
    calls whose readings do not decrease and span less than ten seconds
    answer [False] five times and [True] the sixth time; four such calls
    followed by one eleven seconds after the fourth all answer [False],
    and the window then holds the last reading only. *)
Theorem burst_on_sixth_call (message : Message) (self : Bot)
    (user_data : UserData) (t1 t2 t3 t4 t5 t6 : Z) :
  lookup_record (author_id message) self = Some user_data →
  recent_messages user_data = [] →
  t1 ≤ t2 ∧ t2 ≤ t3 ∧ t3 ≤ t4 ∧ t4 ≤ t5 ∧ t5 ≤ t6 →
  t6 - t1 < horizon_us →
  (is_spam_calls message [t1; t2; t3; t4; t5; t6] self).1
    = Returned [false; false; false; false; false; true]
  ∧ (let late :=
       is_spam_calls message [t1; t2; t3; t4; t4 + 11000000] self in
     late.1 = Returned [false; false; false; false; false]
     ∧ stored_window (author_id message) late.2 = [t4 + 11000000]).
Proof.
  intros Hrec Hempty Horder Hspan. unfold horizon_us in Hspan. split.
  - destruct (is_spam_calls_quiet message [t1; t2; t3; t4; t5] self user_data)
      as (self' & Hrun & Hrec'); [done| |rewrite Hempty; simpl; lia|].
    { rewrite Hempty. simpl. unfold within, horizon_us.
      repeat (constructor; [|repeat constructor; lia]). constructor. }
    rewrite Hempty in Hrec'. simpl in Hrec'.
    pose proof (is_spam_known message t6 self' _ Hrec') as Hsix.
    cbv zeta in Hsix. rewrite prune_keeps_all in Hsix.
    + change [t1; t2; t3; t4; t5; t6] with ([t1; t2; t3; t4; t5] ++ [t6]).
      by rewrite (is_spam_calls_snoc _ _ _ _ _ _ _ _ Hrun Hsix).
    + simpl. unfold horizon_us. repeat constructor; lia.
  - destruct (is_spam_calls_quiet message [t1; t2; t3; t4] self user_data)
      as (self' & Hrun & Hrec'); [done| |rewrite Hempty; simpl; lia|].
    { rewrite Hempty. simpl. unfold within, horizon_us.
      repeat (constructor; [|repeat constructor; lia]). constructor. }
    rewrite Hempty in Hrec'. simpl in Hrec'.
    pose proof (is_spam_known message (t4 + 11000000) self' _ Hrec') as Hlate.
    cbv zeta in Hlate. rewrite prune_drops_all in Hlate.
    + change [t1; t2; t3; t4; t4 + 11000000]
        with ([t1; t2; t3; t4] ++ [t4 + 11000000]).
      cbv zeta. rewrite (is_spam_calls_snoc _ _ _ _ _ _ _ _ Hrun Hlate).
      split; [done|]. unfold stored_window, lookup_record. simpl.
      by rewrite lookup_insert_eq.
    + simpl. unfold horizon_us, day_us. repeat constructor; lia.
Qed.

Lemma burst_on_sixth_call_witness :
  lookup_record (author_id (hello 7)) flagged
    = Some (mkUserData 1 [mkReason "suspicious_content" 1 0] [])
  ∧ (0 ≤ 1000000 ∧ 1000000 ≤ 2000000 ∧ 2000000 ≤ 3000000
     ∧ 3000000 ≤ 4000000 ∧ 4000000 ≤ 5000000)
  ∧ 5000000 - 0 < horizon_us
  ∧ (is_spam_calls (hello 7)
       [0; 1000000; 2000000; 3000000; 4000000; 5000000] flagged).1
    = Returned [false; false; false; false; false; true]
  ∧ (let late :=
       is_spam_calls (hello 7)
         [0; 1000000; 2000000; 3000000; 3000000 + 11000000] flagged in
     late.1 = Returned [false; false; false; false; false]
     ∧ stored_window (author_id (hello 7)) late.2 = [3000000 + 11000000]).
Proof.
  assert (Hrec : lookup_record (author_id (hello 7)) flagged
                 = Some (mkUserData 1 [mkReason "suspicious_content" 1 0] []))
    by (vm_compute; reflexivity).
  assert (Horder : 0 ≤ 1000000 ∧ 1000000 ≤ 2000000 ∧ 2000000 ≤ 3000000
                   ∧ 3000000 ≤ 4000000 ∧ 4000000 ≤ 5000000) by lia.
  assert (Hspan : 5000000 - 0 < horizon_us) by (unfold horizon_us; lia).
  split; [exact Hrec|]. split; [exact Horder|]. split; [exact Hspan|].
  exact (burst_on_sixth_call (hello 7) flagged _ 0 1000000 2000000 3000000
           4000000 5000000 Hrec eq_refl Horder Hspan).
Defined.

(** C2, as stated, fails: five calls within four seconds, and the fifth
    answers [False]. *)
Lemma fifth_call_is_not_a_burst :
  (is_spam_calls (hello 7) [0; 1000000; 2000000; 3000000; 4000000] flagged).1
  = Returned [false; false; false; false; false].
Proof. vm_compute. reflexivity. Qed.

(** ** Slices *)

Lemma slice_from_last {A} (n : nat) (l : list A) :
  (0 < n)%nat → slice_from (- Z.of_nat n) l = drop (length l - n) l.
Proof.
  intros Hn. unfold slice_from.
  destruct (Z.ltb_spec (- Z.of_nat n) 0); [|lia].
  f_equal. lia.
Qed.

(** ** Alerts and the ledger *)

Lemma add_io_nil self : add_io [] self = self.
Proof. destruct self. unfold add_io. simpl. by rewrite app_nil_r. Qed.

(** [send_security_alert] never raises and touches nothing but the
    outside world. *)
Lemma send_security_alert_returns env embed self :
  send_security_alert env embed self
  = (Returned tt, add_io (alert_io env (config self) embed) self).
Proof.
  unfold send_security_alert, alert_io. run_monad.
  destruct (truthy_id (log_channel_id (config self))) as [id|];
    [|by rewrite add_io_nil].
  destruct (get_channel env id); [|by rewrite add_io_nil].
  destruct (channel_send env id embed) as [e|]; simpl.
  - unfold emit, add_io. simpl. by rewrite <- app_assoc.
  - done.
Qed.

Lemma add_suspicion_returns env user_id why pts now self :
  add_suspicion env user_id why pts now self
  = (Returned tt,
     add_io (if threshold self <=? scan_total_points user_id self + pts
             then alert_io env (config self)
                    (high_suspicion_embed env user_id
                       (charged user_id why pts now self))
             else [])
       (set_suspicious_users <[user_id := charged user_id why pts now self]>
          self)).
Proof.
  unfold add_suspicion, charged, threshold, scan_total_points, scan_reasons,
    stored_window, lookup_record, handle_high_suspicion.
  run_monad.
  destruct (suspicious_users self !! user_id) as [user_data|] eqn:Hrec.
  - rewrite bool_decide_eq_false_2 by done. cbv beta iota.
    rewrite Hrec. simpl.
    destruct (_ <=? _).
    + by rewrite send_security_alert_returns.
    + by rewrite add_io_nil.
  - rewrite bool_decide_eq_true_2 by done. cbv beta iota. simpl.
    rewrite lookup_insert_eq. simpl.
    assert (Hins : ∀ d : UserData,
      set_suspicious_users <[user_id := d]>
        (set_suspicious_users <[user_id := mkUserData 0 [] []]> self)
      = set_suspicious_users <[user_id := d]> self).
    { intros d. unfold set_suspicious_users. simpl.
      by rewrite insert_insert_eq. }
    rewrite Hins.
    destruct (_ <=? _).
    + by rewrite send_security_alert_returns.
    + by rewrite add_io_nil.
Qed.

Lemma clear_suspicion_returns member_id self :
  clear_suspicion member_id self
  = match lookup_record member_id self with
    | Some _ =>
        (Returned SuspicionCleared,
         set_suspicious_users (delete member_id) self)
    | None => (Returned NoSuspicion, self)
    end.
Proof.
  unfold clear_suspicion, lookup_record. run_monad.
  destruct (suspicious_users self !! member_id) eqn:Hrec.
  - by rewrite bool_decide_eq_true_2.
  - rewrite bool_decide_eq_false_2; [done|]. by intros [? ?].
Qed.

Lemma clear_suspicion_gone member_id self :
  lookup_record member_id (clear_suspicion member_id self).2 = None.
Proof.
  rewrite clear_suspicion_returns.
  destruct (lookup_record member_id self) eqn:Hrec; [|done].
  unfold lookup_record. simpl. apply lookup_delete_eq.
Qed.

Lemma sum_points_app l1 l2 :
  sum_points (l1 ++ l2) = sum_points l1 + sum_points l2.
Proof. induction l1 as [|r l1 IH]; simpl; [done|]. rewrite IH. lia. Qed.

Lemma sum_list_app l1 l2 : sum_list (l1 ++ l2) = sum_list l1 + sum_list l2.
Proof. induction l1 as [|r l1 IH]; simpl; [done|]. rewrite IH. lia. Qed.

Lemma sum_points_fmap l : sum_points l = sum_list (points <$> l).
Proof. induction l as [|r l IH]; simpl; [done|]. by rewrite IH. Qed.

Lemma is_spam_ledger_view message now self user :
  ∃ r self', is_spam message now self = (Returned r, self')
             ∧ ledger_view user self' = ledger_view user self.
Proof.
  destruct (suspicious_users self !! author_id message) as [d|] eqn:Hrec.
  - rewrite (is_spam_known _ _ _ _ Hrec). cbv zeta.
    destruct (Nat.leb 5 _); eexists _, _; (split; [done|]); [done|].
    unfold ledger_view, scan_total_points, scan_reasons, lookup_record. simpl.
    destruct (decide (author_id message = user)) as [<-|Hne].
    + by rewrite lookup_insert_eq, Hrec.
    + by rewrite lookup_insert_ne.
  - rewrite (is_spam_unknown _ _ _ Hrec). by eexists _, _.
Qed.

Lemma perform_ledger_view env c self user :
  ∃ self', perform env c self = (Returned tt, self')
    ∧ ledger_view user self'
      = match c with
        | AddSuspicion u _ pts _ =>
            if bool_decide (u = user)
            then ((ledger_view user self).1 + pts,
                  (ledger_view user self).2 ++ [pts])
            else ledger_view user self
        | IsSpam _ _ => ledger_view user self
        | ClearSuspicion u =>
            if bool_decide (u = user) then (0, []) else ledger_view user self
        end.
Proof.
  destruct c as [u why pts now|message now|u]; simpl.
  - rewrite add_suspicion_returns. eexists. split; [done|].
    unfold ledger_view, scan_total_points, scan_reasons, lookup_record,
      charged. simpl.
    case_bool_decide as Hu.
    + subst u. rewrite lookup_insert_eq. simpl. by rewrite fmap_app.
    + by rewrite lookup_insert_ne.
  - destruct (is_spam_ledger_view message now self user)
      as (r & self' & Hrun & Hview).
    exists self'. by rewrite (bind_returned _ _ _ _ _ Hrun).
  - unfold mbind, M_bind. rewrite clear_suspicion_returns.
    unfold ledger_view, scan_total_points, scan_reasons, lookup_record.
    destruct (suspicious_users self !! u) as [d|] eqn:Hrec;
      run_monad; eexists; (split; [done|]); simpl.
    + case_bool_decide as Hu.
      * subst u. by rewrite lookup_delete_eq.
      * by rewrite lookup_delete_ne.
    + case_bool_decide as Hu; [|done]. subst u. by rewrite Hrec.
Qed.

Lemma perform_all_ledger_view env cs user : ∀ self acc,
  ledger_view user self = (sum_list acc, acc) →
  ∃ self', perform_all env cs self = (Returned tt, self')
    ∧ ledger_view user self'
      = (sum_list (supplied user cs acc), supplied user cs acc).
Proof.
  induction cs as [|c cs IH]; intros self acc Hview; simpl.
  - by exists self.
  - destruct (perform_ledger_view env c self user) as (self1 & Hrun & Hview1).
    rewrite (bind_returned _ _ _ _ _ Hrun).
    rewrite Hview in Hview1. simpl in Hview1.
    destruct c as [u why pts now|message now|u]; apply IH.
    + rewrite Hview1. case_bool_decide; [|done].
      rewrite sum_list_app. simpl. by rewrite Z.add_0_r.
    + done.
    + rewrite Hview1. by case_bool_decide.
Qed.

Lemma supplied_charges user args : ∀ acc,
  supplied user (charges user args) acc = acc ++ ((λ a, a.1.2) <$> args).
Proof.
  induction args as [|a args IH]; intros acc; simpl.
  - by rewrite app_nil_r.
  - rewrite bool_decide_eq_true_2 by done. fold (charges user args).
    by rewrite IH, <- app_assoc.
Qed.

(** C3.  After any sequence of ledger calls on a fresh bot, and for every
    user, the total read by a scan equals the sum of the points in the
    stored history and the sum of the [points] arguments given to
    [add_suspicion] for that user since the user's last clear; the stored
    history lists exactly those arguments, in call order.  In particular,
    after a sequence of [add_suspicion] calls for one user the total is
    the sum of all the [points] arguments.  No call in the sequence
    raises. *)
Theorem total_points_is_sum (env : Env) (cfg : Config)
    (calls : list LedgerCall) (user : Z) :
  ∃ self,
    perform_all env calls (new_bot cfg) = (Returned tt, self)
    ∧ scan_total_points user self = sum_points (scan_reasons user self)
    ∧ scan_total_points user self = sum_list (supplied user calls [])
    ∧ points <$> scan_reasons user self = supplied user calls []
    ∧ (∀ args, calls = charges user args →
               scan_total_points user self = sum_list ((λ a, a.1.2) <$> args)).
Proof.
  destruct (perform_all_ledger_view env calls user (new_bot cfg) [])
    as (self & Hrun & Hview); [done|].
  exists self. injection Hview as Htotal Hhistory.
  rewrite sum_points_fmap, Hhistory.
  repeat (split; [done|]).
  intros args ->. by rewrite Htotal, supplied_charges.
Qed.

(** C4, as amended.  Whenever the total after the increment reaches the
    threshold, [add_suspicion] stores the charged record and then runs
    [handle_high_suspicion] on it, on this call and on every later one.
    With a log channel that is configured and found, one more embed is
    handed to [channel.send]: the high-suspicion embed, which carries the
    user, the new total and the last five reasons when the user cache
    knows the user, and no field when it does not. *)
Theorem high_suspicion_alert (env : Env) (user_id : Z) (why : string)
    (pts now : Z) (self : Bot) :
  threshold self ≤ scan_total_points user_id self + pts →
  let user_data := charged user_id why pts now self in
  let history := scan_reasons user_id self ++ [mkReason why pts now] in
  let embed := high_suspicion_embed env user_id user_data in
  add_suspicion env user_id why pts now self
    = handle_high_suspicion env user_id user_data
        (set_suspicious_users <[user_id := user_data]> self)
  ∧ (∀ id, truthy_id (log_channel_id (config self)) = Some id →
           get_channel env id = true →
           sent (io (add_suspicion env user_id why pts now self).2)
           = sent (io self) ++ [embed])
  ∧ title embed = HighSuspicion
  ∧ fields embed
    = if get_user env user_id then
        [(FUser, VMention user_id);
         (FPoints, VInt (scan_total_points user_id self + pts));
         (FLastReasons,
          VText (join ", "
                   (reason <$> drop (length history - 5) history)))]
      else [].
Proof.
  intros Hreached. cbv zeta.
  rewrite add_suspicion_returns.
  destruct (Z.leb_spec (threshold self)
              (scan_total_points user_id self + pts)); [|lia].
  unfold handle_high_suspicion. rewrite send_security_alert_returns.
  split; [done|]. split; [|split].
  - intros id Hid Hfound. simpl. unfold alert_io. rewrite Hid, Hfound.
    unfold sent. rewrite omap_app. f_equal.
    by destruct (channel_send env id _).
  - unfold high_suspicion_embed. by destruct (get_user env user_id).
  - unfold high_suspicion_embed. destruct (get_user env user_id); [|done].
    simpl. by rewrite (slice_from_last 5) by lia.
Qed.

Lemma high_suspicion_alert_witness :
  threshold flagged ≤ scan_total_points 7 flagged + 2
  ∧ add_suspicion calm 7 "spam" 2 9 flagged
    = handle_high_suspicion calm 7 (charged 7 "spam" 2 9 flagged)
        (set_suspicious_users <[7 := charged 7 "spam" 2 9 flagged]> flagged).
Proof.
  assert (Hreached : threshold flagged ≤ scan_total_points 7 flagged + 2).
  { vm_compute. discriminate. }
  split; [exact Hreached|].
  exact (proj1 (high_suspicion_alert calm 7 "spam" 2 9 flagged Hreached)).
Defined.

(** Level-triggered: two charges at or over the threshold, two alerts. *)
Example alert_repeats :
  title <$> sent (io (perform_all calm
                        [AddSuspicion 7 "invite_link" 3 0;
                         AddSuspicion 7 "suspicious_content" 1 1]
                        (new_bot logging_config)).2)
  = [HighSuspicion; HighSuspicion].
Proof. vm_compute. reflexivity. Qed.

(** C4, as stated, fails: with the user missing from the cache the alert
    that is sent carries neither the total nor any reason. *)
Lemma alert_without_summary :
  sent (io (add_suspicion uncached 7 "invite_link" 3 0
              (new_bot logging_config)).2)
  = [mkEmbed HighSuspicion []].
Proof. vm_compute. reflexivity. Qed.

(** ** The event log *)

Lemma drop_short {A} (n : nat) (l : list A) :
  (length l ≤ n)%nat → drop (length l - n) l = l.
Proof. intros H. by replace (length l - n)%nat with 0%nat by lia. Qed.

(** Trimming to the last [n], appending, and trimming again is trimming
    the whole history once. *)
Lemma last_of_last_app {A} (n : nat) (a b : list A) :
  let kept := drop (length a - n) a in
  drop (length (kept ++ b) - n) (kept ++ b)
  = drop (length (a ++ b) - n) (a ++ b).
Proof.
  cbv zeta. rewrite !drop_app, drop_drop, !length_app, !length_drop.
  f_equal; f_equal; lia.
Qed.

Lemma log_security_event_stored env event self :
  db_log_event env event = None →
  log_security_event env event self
  = (Returned tt,
     add_io [DbLogEvent event]
       (set_security_events
          (λ l, drop (length (l ++ [event]) - 1000) (l ++ [event])) self)).
Proof.
  intros Hsink. unfold log_security_event. run_monad. rewrite Hsink.
  unfold emit, add_io, set_security_events. simpl.
  destruct (Nat.ltb_spec 1000 (length (security_events self ++ [event]))).
  - simpl. by rewrite (slice_from_last 1000) by lia.
  - by rewrite drop_short by lia.
Qed.

Lemma log_all_stored env events : ∀ self,
  Forall (λ e, db_log_event env e = None) events →
  (length (security_events self) ≤ 1000)%nat →
  ∃ self', log_all env events self = (Returned tt, self')
    ∧ security_events self'
      = drop (length (security_events self ++ events) - 1000)
             (security_events self ++ events).
Proof.
  induction events as [|e events IH]; intros self Hsink Hlen.
  - exists self. split; [done|]. rewrite app_nil_r. by rewrite drop_short.
  - apply Forall_cons in Hsink as [He Hsink]. simpl.
    rewrite (bind_returned _ _ _ _ _ (log_security_event_stored _ _ self He)).
    edestruct IH as (self' & Hrun & Hkept); [exact Hsink| |].
    2:{ exists self'. split; [exact Hrun|]. rewrite Hkept. simpl.
        rewrite (last_of_last_app 1000 (security_events self ++ [e]) events).
        by rewrite <- app_assoc. }
    simpl. rewrite length_drop. lia.
Qed.

Lemma log_security_event_raised env event self e :
  db_log_event env event = Some e →
  log_security_event env event self
  = (Raised e,
     add_io [DbLogEvent event]
       (set_security_events (λ l, l ++ [event]) self)).
Proof.
  intros Hsink. unfold log_security_event. run_monad. by rewrite Hsink.
Qed.

(** A run of record operations returns exactly when the sink accepts
    every write. *)
Lemma log_all_returned env events : ∀ self,
  (log_all env events self).1 = Returned tt
  ↔ Forall (λ e, db_log_event env e = None) events.
Proof.
  induction events as [|e events IH]; intros self; simpl.
  - split; [constructor|done].
  - rewrite Forall_cons.
    destruct (db_log_event env e) as [x|] eqn:Hsink.
    + rewrite (bind_raised _ _ _ _ _
                 (log_security_event_raised _ _ self _ Hsink)).
      simpl. split; [done|]. by intros [? _].
    + rewrite (bind_returned _ _ _ _ _
                 (log_security_event_stored _ _ self Hsink)).
      rewrite IH. split; [by split|by intros [_ ?]].
Qed.

(** While the sink accepts the writes, retention works: after a run of
    record operations that returns, on a log of at most 1000 entries, the
    log holds exactly the last 1000 entries of the whole history, in
    insertion order; only oldest entries are dropped.  (By
    [log_all_returned] the run returns exactly when the sink accepts every
    write.) *)
Theorem event_log_retention (env : Env) (events : list SecurityEvent)
    (self : Bot) :
  (length (security_events self) ≤ 1000)%nat →
  (log_all env events self).1 = Returned tt →
  let kept := security_events (log_all env events self).2 in
  (length kept ≤ 1000)%nat
  ∧ kept = drop (length (security_events self ++ events) - 1000)
                (security_events self ++ events)
  ∧ kept `suffix_of` security_events self ++ events
  ∧ (security_events self = [] → length events = 1005%nat →
     kept = drop 5 events).
Proof.
  intros Hlen Hreturned. apply log_all_returned in Hreturned as Hsink.
  destruct (log_all_stored env events self Hsink Hlen) as (self' & Hrun & Hkept).
  rewrite Hrun. cbv zeta. simpl. split; [|split; [done|split]].
  - rewrite Hkept, length_drop. lia.
  - rewrite Hkept. apply suffix_drop.
  - intros Hempty H1005. rewrite Hkept, Hempty. simpl. by rewrite H1005.
Qed.

Lemma event_log_retention_witness :
  (length (security_events (new_bot default_config)) ≤ 1000)%nat
  ∧ (log_all calm many_joins (new_bot default_config)).1 = Returned tt
  ∧ (length (security_events
               (log_all calm many_joins (new_bot default_config)).2)
     ≤ 1000)%nat
  ∧ security_events (log_all calm many_joins (new_bot default_config)).2
    = drop 5 many_joins.
Proof.
  assert (Hlen : (length (security_events (new_bot default_config)) ≤ 1000)%nat).
  { simpl. lia. }
  assert (Hreturned :
    (log_all calm many_joins (new_bot default_config)).1 = Returned tt).
  { vm_compute. reflexivity. }
  split; [exact Hlen|]. split; [exact Hreturned|].
  destruct (event_log_retention calm many_joins (new_bot default_config)
              Hlen Hreturned) as (Hbound & _ & _ & Hlast).
  split; [exact Hbound|].
  apply Hlast; [reflexivity|]. unfold many_joins.
  rewrite length_fmap. apply length_seq.
Defined.

(** C5.  The code at the failing input.  The sink write sits between the
    append and the trim of [log_security_event].  On a log that holds 1000
    entries, a write that the sink refuses makes the call raise after the
    append: the log is left with 1001 entries, the old ones followed by
    the new one, and nothing is evicted.  While the sink stays down every
    further event is kept as well: 1005 leaves on a fresh bot leave 1005
    entries.  With a sink that accepts the writes, 1005 events leave
    exactly the last 1000, in insertion order. *)
Theorem failed_sink_write_skips_trim :
  ((log_security_event sink_down (join_event 1000) full_log).1
   = Raised (Exception "OperationalError")
   ∧ length (security_events full_log) = 1000%nat
   ∧ security_events
       (log_security_event sink_down (join_event 1000) full_log).2
     = security_events full_log ++ [join_event 1000]
   ∧ length (security_events
               (log_security_event sink_down (join_event 1000) full_log).2)
     = 1001%nat)
  ∧ length (security_events
              (after sink_down FUser departures (new_bot default_config)))
    = 1005%nat
  ∧ ((log_all calm many_joins (new_bot default_config)).1 = Returned tt
     ∧ security_events (log_all calm many_joins (new_bot default_config)).2
       = drop 5 many_joins
     ∧ length (security_events
                 (log_all calm many_joins (new_bot default_config)).2)
       = 1000%nat).
Proof.
  split; [|split]; [repeat split| |repeat split]; vm_compute; reflexivity.
Qed.

(** ** [show_logs] *)

Lemma show_logs_returns env filter_type limit self :
  show_logs env filter_type limit self
  = (Returned
       match matching env filter_type self with
       | [] => LogsNotFound
       | _ => LogsEmbed (slice_from (- (if 25 <? limit then 25 else limit))
                                    (matching env filter_type self))
       end,
     self).
Proof.
  unfold show_logs, matching. run_monad.
  destruct (String.eqb filter_type "all"); simpl.
  - by destruct (security_events self).
  - by destruct (List.filter _ _).
Qed.

Lemma filter_sublist {A} (f : A → bool) (l : list A) :
  List.filter f l `sublist_of` l.
Proof.
  induction l as [|x l IH]; simpl; [constructor|].
  destruct (f x); by constructor.
Qed.

Lemma filter_all {A} (f : A → bool) (l : list A) :
  Forall (λ x, f x = true) (List.filter f l).
Proof.
  induction l as [|x l IH]; simpl; [constructor|].
  destruct (f x) eqn:Hx; [by constructor|done].
Qed.

(** C6, as amended.  For every filter and every limit of at least 1,
    [show_logs] returns normally and changes nothing.  It reports that no
    logs were found when no event matches; otherwise it lists the last
    [min limit 25] matching events in insertion order, the most recent
    last: at most 25 and at most [limit] of them.  With the filter "all"
    every event matches; with any other filter the matching events are
    exactly those whose type equals the filter as [str.upper] returns
    it. *)
Theorem show_logs_recent (env : Env) (filter_type : string) (limit : Z)
    (self : Bot) :
  1 ≤ limit →
  ∃ reply,
    show_logs env filter_type limit self = (Returned reply, self)
    ∧ match reply with
      | LogsNotFound => matching env filter_type self = []
      | LogsEmbed recent =>
          recent
          = drop (length (matching env filter_type self)
                  - Z.to_nat (Z.min limit 25))
                 (matching env filter_type self)
          ∧ (length recent ≤ 25)%nat
          ∧ Z.of_nat (length recent) ≤ limit
          ∧ recent `suffix_of` matching env filter_type self
          ∧ matching env filter_type self `sublist_of` security_events self
          ∧ (filter_type ≠ "all" →
             Forall (λ e, event_type e = str_upper env filter_type) recent)
      end
    ∧ (filter_type = "all" →
       matching env filter_type self = security_events self)
    ∧ (filter_type ≠ "all" →
       ∀ e, e ∈ matching env filter_type self
            ↔ e ∈ security_events self
              ∧ event_type e = str_upper env filter_type).
Proof.
  intros Hlimit. rewrite show_logs_returns. eexists. split; [done|].
  split; [|split].
  - destruct (matching env filter_type self) as [|e0 rest] eqn:Hmatch; [done|].
    assert (Hslice :
      slice_from (- (if 25 <? limit then 25 else limit)) (e0 :: rest)
      = drop (length (e0 :: rest) - Z.to_nat (Z.min limit 25)) (e0 :: rest)).
    { rewrite <- (slice_from_last (Z.to_nat (Z.min limit 25))) by lia.
      f_equal. destruct (Z.ltb_spec 25 limit); lia. }
    rewrite Hslice. split; [done|].
    split; [rewrite length_drop; lia|].
    split; [rewrite length_drop; lia|].
    split; [apply suffix_drop|].
    split.
    + rewrite <- Hmatch. unfold matching.
      destruct (String.eqb filter_type "all"); [done|apply filter_sublist].
    + intros Hfilter. apply Forall_drop. rewrite <- Hmatch. unfold matching.
      destruct (String.eqb_spec filter_type "all"); [done|].
      eapply Forall_impl; [apply filter_all|].
      intros e He. by apply String.eqb_eq.
  - intros ->. reflexivity.
  - intros Hfilter e. unfold matching.
    destruct (String.eqb_spec filter_type "all"); [done|].
    rewrite !list_elem_of_In, filter_In, String.eqb_eq. done.
Qed.

Lemma show_logs_recent_witness :
  1 ≤ 1
  ∧ (show_logs calm "member_leave" 1 two_events).1
    = Returned (LogsEmbed [leave_event 2]).
Proof.
  split; [lia|].
  destruct (show_logs_recent calm "member_leave" 1 two_events)
    as (reply & Hrun & Hreply & _); [lia|].
  rewrite Hrun. simpl. destruct reply as [|recent].
  - vm_compute in Hreply. discriminate.
  - destruct Hreply as (-> & _). vm_compute. reflexivity.
Defined.

(** C6, as stated, fails.  The reply lists the older event first; a
    lower-case filter returns events whose type differs from it; and a
    limit of 0 returns all 26 stored events. *)
Lemma show_logs_claim_fails :
  ((show_logs calm "all" 10 two_events).1
   = Returned (LogsEmbed [join_event 1; leave_event 2])
   ∧ timestamp (join_event 1) < timestamp (leave_event 2))
  ∧ ((show_logs calm "member_join" 10 two_events).1
     = Returned (LogsEmbed [join_event 1])
     ∧ event_type (join_event 1) ≠ "member_join")
  ∧ (show_logs calm "all" 0 crowded).1
    = Returned (LogsEmbed (security_events crowded))
  ∧ length (security_events crowded) = 26%nat.
Proof.
  split; [|split; [|split]].
  - split; [vm_compute; reflexivity|simpl; lia].
  - split; [vm_compute; reflexivity|discriminate].
  - vm_compute. reflexivity.
  - vm_compute. reflexivity.
Qed.

(** ** Failures of external calls *)

(** C7.  The code at the failing input.  Member 7 has five readings in the
    window, so the next message is a burst.  When [Member.timeout] is
    refused, [process_message] raises and the two points for spam are
    never added, although they are when the timeout succeeds.  A failing
    sink write raises out of [process_message] as well.  Only a failing
    [channel.send] is logged and swallowed, and the points are added. *)
Theorem refused_timeout_skips_increment :
  ((process_message forbidden (hello 7) 5000000 five_seen).1
   = Raised (Exception "Forbidden")
   ∧ scan_total_points 7
       (process_message forbidden (hello 7) 5000000 five_seen).2
     = scan_total_points 7 five_seen)
  ∧ ((process_message calm (hello 7) 5000000 five_seen).1 = Returned tt
     ∧ scan_total_points 7 (process_message calm (hello 7) 5000000 five_seen).2
       = scan_total_points 7 five_seen + 2)
  ∧ (process_message sink_down (hello 8) 0 five_seen).1
    = Raised (Exception "OperationalError")
  ∧ ((process_message send_down (hello 7) 5000000 five_seen_logged).1
     = Returned tt
     ∧ scan_total_points 7
         (process_message send_down (hello 7) 5000000 five_seen_logged).2
       = scan_total_points 7 five_seen_logged + 2
     ∧ LoggerError (Exception "HTTPException")
       ∈ io (process_message send_down (hello 7) 5000000 five_seen_logged).2).
Proof.
  split; [|split; [|split; [|split; [|split]]]]; try (vm_compute; reflexivity).
  - split; vm_compute; reflexivity.
  - split; vm_compute; reflexivity.
  - replace (io (process_message send_down (hello 7) 5000000
                   five_seen_logged).2)
      with [ChannelSend 99 (mkEmbed SpamDetected
                              [(FAuthor, VMention 7); (FChannel, VMention 5)]);
            LoggerError (Exception "HTTPException");
            MemberTimeout 7 5;
            ChannelSend 99
              (high_suspicion_embed send_down 7
                 (charged 7 "spam" 2 5000000 five_seen_logged));
            LoggerError (Exception "HTTPException");
            DbLogMessage (hello 7)]
      by (vm_compute; reflexivity).
    apply list_elem_of_further, list_elem_of_here.
Qed.

(** ** The guild scan *)

Lemma percentage_below_ten (o t : Z) :
  0 < t → Qlt_bool (inject_Z o / inject_Z t * 100) 10 = (10 * o <? t).
Proof.
  intros Ht. destruct t as [|p|p]; try lia.
  unfold Qlt_bool, Qle_bool, Qdiv, Qmult, Qinv, inject_Z. simpl.
  rewrite <- Z.ltb_antisym, Pos.mul_1_l, Pos.mul_1_r.
  apply Bool.eq_iff_eq_true. rewrite !Z.ltb_lt. lia.
Qed.

Lemma fraction_below_tenth (o t : Z) :
  0 < t → Qlt_bool (inject_Z o / inject_Z t) (1 # 10) = (10 * o <? t).
Proof.
  intros Ht. destruct t as [|p|p]; try lia.
  unfold Qlt_bool, Qle_bool, Qdiv, Qmult, Qinv, inject_Z. simpl.
  rewrite <- Z.ltb_antisym, ?Pos.mul_1_l, ?Pos.mul_1_r.
  apply Bool.eq_iff_eq_true. rewrite !Z.ltb_lt. lia.
Qed.

Lemma Qlt_bool_iff (x y : Q) : Qlt_bool x y = true ↔ (x < y)%Q.
Proof.
  unfold Qlt_bool. rewrite negb_true_iff, <- not_true_iff_false, Qle_bool_iff.
  split; [apply Qnot_le_lt|apply Qlt_not_le].
Qed.

(** The list comprehension of [scan_guild_security] counts the members
    who are not offline. *)
Lemma online_members_present guild :
  online_members guild = present (members guild).
Proof.
  unfold online_members.
  induction (members guild) as [|status rest IH]; [done|].
  destruct status; simpl in *; lia.
Qed.

(** C8.  The online count of the scan is the number of listed members
    whose status is not offline (idle, do-not-disturb and invisible
    members count as online).  The guild scan hands the low-activity embed
    to [send_security_alert] exactly when the guild has more than 100
    members and fewer than one tenth of them online, and does nothing
    otherwise.  The embed carries the guild name, the online and total
    counts, and the percentage for one-decimal rendering.  150 members
    with 10 online trigger it; 50 members with 2 online do not; 150
    members of whom 10 are idle and 5 do not want to be disturbed have 15
    online, which is not below one tenth. *)
Theorem low_activity_alert (env : Env) (guild : Guild) (self : Bot) :
  let online_count := present (members guild) in
  online_members guild = online_count
  ∧ scan_guild_security env guild self
    = (if low_activity_spec online_count (member_count guild)
       then send_security_alert env (low_activity_embed guild) self
       else (Returned tt, self))
  ∧ (low_activity_spec online_count (member_count guild) = true
     ↔ 100 < member_count guild
       ∧ (inject_Z online_count / inject_Z (member_count guild) < 1 # 10)%Q)
  ∧ low_activity_embed guild
    = mkEmbed LowActivity
        [(FGuild, VText (guild_name guild));
         (FOnline, VRatio online_count (member_count guild));
         (FPercent,
          VPercent1 (inject_Z online_count
                     / inject_Z (member_count guild) * 100)%Q)]
  ∧ (sent (io (scan_guild_security calm busy_guild
                 (new_bot logging_config)).2)
     = [low_activity_embed busy_guild]
     ∧ low_activity_embed busy_guild
       = mkEmbed LowActivity
           [(FGuild, VText "guild"); (FOnline, VRatio 10 150);
            (FPercent, VPercent1 (online_percentage busy_guild))]
     ∧ (665 # 100 < online_percentage busy_guild < 675 # 100)%Q)
  ∧ sent (io (scan_guild_security calm small_guild
                (new_bot logging_config)).2) = []
  ∧ (online_members away_guild = 15
     ∧ sent (io (scan_guild_security calm away_guild
                   (new_bot logging_config)).2) = []).
Proof.
  cbv zeta. rewrite <- online_members_present.
  split; [done|]. split; [|split; [|split; [done|split; [|split]]]].
  - unfold scan_guild_security, low_activity_spec, online_percentage.
    run_monad.
    destruct (Z.ltb_spec 0 (member_count guild)) as [Hpos|Hnone].
    + rewrite percentage_below_ten, fraction_below_tenth by done.
      rewrite andb_comm. by destruct (_ && _).
    + destruct (Z.ltb_spec 100 (member_count guild)); [lia|done].
  - unfold low_activity_spec. rewrite andb_true_iff, Qlt_bool_iff.
    by rewrite Z.ltb_lt.
  - split; [vm_compute; reflexivity|]. split; [reflexivity|].
    split; reflexivity.
  - vm_compute. reflexivity.
  - split; vm_compute; reflexivity.
Qed.

(** ** Clearing a record *)

(** C9.  [clear_suspicion] never raises.  It reports that suspicion was
    cleared exactly when a record existed, and otherwise changes nothing.
    Afterwards the member has no record, every other member's record is as
    before, and clearing again reports that there was none and changes
    nothing. *)
Theorem clear_suspicion_idempotent (member_id : Z) (self : Bot) :
  ∃ cleared,
    clear_suspicion member_id self
    = (Returned (match lookup_record member_id self with
                 | Some _ => SuspicionCleared
                 | None => NoSuspicion
                 end), cleared)
    ∧ (lookup_record member_id self = None → cleared = self)
    ∧ lookup_record member_id cleared = None
    ∧ (∀ other, other ≠ member_id →
                lookup_record other cleared = lookup_record other self)
    ∧ clear_suspicion member_id cleared = (Returned NoSuspicion, cleared).
Proof.
  rewrite clear_suspicion_returns.
  destruct (lookup_record member_id self) as [d|] eqn:Hrec.
  - eexists. split; [done|]. split; [done|].
    assert (Hgone : lookup_record member_id
                      (set_suspicious_users (delete member_id) self) = None).
    { unfold lookup_record. simpl. apply lookup_delete_eq. }
    split; [done|]. split.
    + intros other Hother. unfold lookup_record. simpl.
      by apply lookup_delete_ne.
    + rewrite clear_suspicion_returns. by rewrite Hgone.
  - exists self. split; [done|]. split; [done|]. split; [done|].
    split; [done|]. rewrite clear_suspicion_returns. by rewrite Hrec.
Qed.

Lemma recorded_false user self :
  recorded user self = false ↔ lookup_record user self = None.
Proof.
  unfold recorded. rewrite bool_decide_eq_false, <- eq_None_not_Some. done.
Qed.

Lemma perform_recorded env c self user :
  ∃ self', perform env c self = (Returned tt, self')
    ∧ recorded user self'
      = match c with
        | AddSuspicion u _ _ _ => recorded user self || bool_decide (u = user)
        | IsSpam _ _ => recorded user self
        | ClearSuspicion u =>
            recorded user self && negb (bool_decide (u = user))
        end.
Proof.
  unfold recorded, lookup_record.
  destruct c as [u why pts now|message now|u]; simpl.
  - rewrite add_suspicion_returns. eexists. split; [done|]. simpl.
    destruct (decide (u = user)) as [->|Hu].
    + rewrite (bool_decide_eq_true_2 (user = user)) by done.
      rewrite lookup_insert_eq, orb_true_r.
      by apply bool_decide_eq_true_2.
    + rewrite (bool_decide_eq_false_2 (u = user)) by done.
      by rewrite lookup_insert_ne, orb_false_r.
  - destruct (suspicious_users self !! author_id message) as [d|] eqn:Hrec.
    + unfold mbind, M_bind. rewrite (is_spam_known _ _ _ _ Hrec). cbv zeta.
      destruct (Nat.leb 5 _); eexists; (split; [done|]); [done|]. simpl.
      destruct (decide (author_id message = user)) as [<-|Hne].
      * rewrite lookup_insert_eq, Hrec.
        by rewrite !bool_decide_eq_true_2.
      * by rewrite lookup_insert_ne.
    + unfold mbind, M_bind. rewrite (is_spam_unknown _ _ _ Hrec).
      by eexists.
  - unfold mbind, M_bind. rewrite clear_suspicion_returns.
    unfold lookup_record.
    destruct (decide (u = user)) as [->|Hu].
    + rewrite (bool_decide_eq_true_2 (user = user)) by done.
      rewrite andb_false_r.
      destruct (suspicious_users self !! user) as [d|] eqn:Hrec;
        eexists; (split; [done|]); simpl;
        apply bool_decide_eq_false_2; intros [? Hsome].
      * by rewrite lookup_delete_eq in Hsome.
      * by rewrite Hrec in Hsome.
    + rewrite (bool_decide_eq_false_2 (u = user)) by done.
      rewrite andb_true_r.
      destruct (suspicious_users self !! u) as [d|] eqn:Hrec;
        eexists; (split; [done|]); simpl; [|done].
      by rewrite lookup_delete_ne.
Qed.

Lemma perform_all_recorded env cs user : ∀ self,
  ∃ self', perform_all env cs self = (Returned tt, self')
    ∧ recorded user self' = has_record user cs (recorded user self).
Proof.
  induction cs as [|c cs IH]; intros self; simpl.
  - by exists self.
  - destruct (perform_recorded env c self user) as (self1 & Hrun & Hrec).
    rewrite (bind_returned _ _ _ _ _ Hrun).
    destruct (IH self1) as (self' & Hrun' & Hrec').
    exists self'. split; [done|]. rewrite Hrec', Hrec.
    by destruct c.
Qed.

(** C10.  The window lives in the record.  After [clear_suspicion] the
    member has no record and so no stored window: the next [is_spam]
    answers [False] and stores nothing, and a later [add_suspicion]
    starts the member with an empty window.  The same holds for a member
    of a bot whose calls so far never charged the member, or cleared the
    member after the last charge.  Five stored readings make the next
    message a burst; after a clear and a new charge it is not. *)
Theorem clear_erases_window (env : Env) (cfg : Config)
    (calls : list LedgerCall) (message : Message) (now : Z) (self : Bot)
    (why : string) (pts t : Z) :
  let member := author_id message in
  let cleared := (clear_suspicion member self).2 in
  let fresh := (perform_all env calls (new_bot cfg)).2 in
  (lookup_record member cleared = None
   ∧ stored_window member cleared = []
   ∧ is_spam message now cleared = (Returned false, cleared)
   ∧ stored_window member (add_suspicion env member why pts t cleared).2 = [])
  ∧ (has_record member calls false = false →
     lookup_record member fresh = None
     ∧ stored_window member fresh = []
     ∧ is_spam message now fresh = (Returned false, fresh))
  ∧ ((is_spam (hello 7) 5000000 five_seen).1 = Returned true
     ∧ (is_spam (hello 7) 5000000
          (add_suspicion calm 7 "manual_warning" 2 4500000
             (clear_suspicion 7 five_seen).2).2).1 = Returned false).
Proof.
  cbv zeta.
  assert (Hnone : ∀ b : Bot,
    lookup_record (author_id message) b = None →
    stored_window (author_id message) b = []
    ∧ is_spam message now b = (Returned false, b)).
  { intros b Hb. split.
    - unfold stored_window. by rewrite Hb.
    - by apply is_spam_unknown. }
  split; [|split].
  - pose proof (clear_suspicion_gone (author_id message) self) as Hgone.
    set (cleared := (clear_suspicion (author_id message) self).2) in *.
    split; [done|].
    destruct (Hnone cleared Hgone) as [Hwin Hspam].
    split; [done|]. split; [done|].
    rewrite add_suspicion_returns. unfold stored_window, lookup_record.
    simpl. rewrite lookup_insert_eq. simpl. exact Hwin.
  - intros Hnever.
    destruct (perform_all_recorded env calls (author_id message) (new_bot cfg))
      as (fresh & Hrun & Hrec).
    rewrite Hrun. simpl.
    assert (Hgone : lookup_record (author_id message) fresh = None).
    { apply recorded_false. rewrite Hrec.
      replace (recorded (author_id message) (new_bot cfg)) with false; [done|].
      symmetry. by apply recorded_false. }
    split; [done|]. by apply Hnone.
  - split; vm_compute; reflexivity.
Qed.

(** ** Keyword and invite matching *)

Lemma append_String c (a b : string) : String c a +:+ b = String c (a +:+ b).
Proof. reflexivity. Qed.

Lemma append_empty (b : string) : "" +:+ b = b.
Proof. reflexivity. Qed.

Lemma prefix_iff (p s : string) :
  String.prefix p s = true ↔ ∃ post, s = p +:+ post.
Proof.
  revert s. induction p as [|a p IH]; intros s; simpl.
  - destruct s; split; eauto.
  - destruct s as [|b s]; simpl.
    + split; [done|]. intros [post Hpost]. by rewrite append_String in Hpost.
    + destruct (ascii_dec a b) as [->|Hne].
      * rewrite IH. split; intros [post Hpost]; exists post;
          rewrite append_String in *; congruence.
      * split; [done|]. intros [post Hpost].
        rewrite append_String in Hpost. congruence.
Qed.

Lemma str_in_iff (needle hay : string) :
  str_in needle hay = true ↔ ∃ pre post, hay = pre +:+ needle +:+ post.
Proof.
  induction hay as [|c hay IH].
  - change (str_in needle "") with (String.prefix needle "" || false).
    rewrite orb_false_r, prefix_iff. split.
    + intros [post Hpost]. by exists "", post.
    + intros (pre & post & Hhay). destruct pre; [by exists post|done].
  - change (str_in needle (String c hay))
      with (String.prefix needle (String c hay) || str_in needle hay).
    rewrite orb_true_iff, prefix_iff, IH. split.
    + intros [[post Hpost]|(pre & post & Hhay)].
      * by exists "", post.
      * exists (String c pre), post. by rewrite append_String, Hhay.
    + intros (pre & post & Hhay). destruct pre as [|c' pre].
      * left. by exists post.
      * right. exists pre, post. rewrite append_String in Hhay. congruence.
Qed.



(** X1.  A text is suspicious exactly when one of the ten keywords occurs
    in it as a substring, at any position and inside any word. *)
Theorem suspicious_iff_keyword_inside (text : string) :
  is_suspicious_content text = true
  ↔ ∃ word pre post,
      word ∈ ["hack"; "cheat"; "exploit"; "crack"; "bypass";
              "ddos"; "bot"; "script"; "auto"; "macro"]
      ∧ text = pre +:+ word +:+ post.
Proof.
  unfold is_suspicious_content. cbv zeta. rewrite existsb_exists. split.
  - intros (word & Hword & Hin). apply str_in_iff in Hin as (pre & post & ->).
    exists word, pre, post. by rewrite list_elem_of_In.
  - intros (word & pre & post & Hword & ->). exists word.
    rewrite <- list_elem_of_In. split; [done|].
    apply str_in_iff. by exists pre, post.
Qed.

(** X2.  A text contains an invite exactly when "discord.gg/" or
    "discordapp.com/invite/" occurs in it as a substring. *)
Theorem invite_iff_link_inside (text : string) :
  contains_invite text = true
  ↔ ∃ pre post,
      text = pre +:+ "discord.gg/" +:+ post
      ∨ text = pre +:+ "discordapp.com/invite/" +:+ post.
Proof.
  unfold contains_invite. rewrite orb_true_iff, !str_in_iff. split.
  - intros [(pre & post & ->)|(pre & post & ->)]; exists pre, post; auto.
  - intros (pre & post & [-> | ->]); [left|right]; by exists pre, post.
Qed.


(** ** One record at a time *)

Lemma perform_record env c self user :
  (perform env c self).1 = Returned tt
  ∧ lookup_record user (perform env c self).2
    = if about user c then record_after c (lookup_record user self)
      else lookup_record user self.
Proof.
  unfold lookup_record.
  destruct c as [u why pts now|message now|u]; cbn [perform about].
  - rewrite add_suspicion_returns. split; [done|]. simpl.
    case_bool_decide as Hu.
    + subst u. by rewrite lookup_insert_eq.
    + by rewrite lookup_insert_ne.
  - unfold mbind, M_bind.
    destruct (suspicious_users self !! author_id message) as [d|] eqn:Hrec.
    + rewrite (is_spam_known _ _ _ _ Hrec).
      case_bool_decide as Hu; [subst user; rewrite Hrec|];
        cbv beta iota zeta delta [record_after kept_at];
        destruct (Nat.leb 5 _); simpl; (split; [done|]); try done.
      * by rewrite lookup_insert_eq.
      * by rewrite lookup_insert_ne.
    + rewrite (is_spam_unknown _ _ _ Hrec). simpl.
      case_bool_decide as Hu; [|done]. subst user. by rewrite Hrec.
  - unfold mbind, M_bind. rewrite clear_suspicion_returns.
    unfold lookup_record.
    destruct (suspicious_users self !! u) as [d|] eqn:Hrec; simpl;
      (split; [done|]); case_bool_decide as Hu; subst.
    + by rewrite lookup_delete_eq.
    + by rewrite lookup_delete_ne.
    + done.
    + done.
Qed.

Lemma perform_all_returns env cs : ∀ self,
  (perform_all env cs self).1 = Returned tt.
Proof.
  induction cs as [|c cs IH]; intros self; simpl; [done|].
  unfold mbind, M_bind.
  pose proof (perform_record env c self 0) as [Hret _].
  destruct (perform env c self) as [[[]|e] self1]; [apply IH|done].
Qed.

Lemma perform_all_cons env c cs self :
  (perform_all env (c :: cs) self).2
  = (perform_all env cs (perform env c self).2).2.
Proof.
  simpl. unfold mbind, M_bind.
  pose proof (perform_record env c self 0) as [Hret _].
  by destruct (perform env c self) as [[[]|e] self1].
Qed.

(** X4.  Members do not interfere, and the outside world does not reach
    the ledger: after any sequence of ledger calls, the record of a member
    is what the calls about that member alone produce, whatever the other
    calls are and whatever the external calls answer. *)
Theorem ledger_calls_do_not_interfere (env env' : Env)
    (calls : list LedgerCall) (user : Z) (self : Bot) :
  lookup_record user (perform_all env calls self).2
  = lookup_record user
      (perform_all env' (List.filter (about user) calls) self).2.
Proof.
  assert (Hgen : ∀ cs s s',
    lookup_record user s = lookup_record user s' →
    lookup_record user (perform_all env cs s).2
    = lookup_record user (perform_all env' (List.filter (about user) cs) s').2).
  { induction cs as [|c cs IH]; intros s s' Hsame; [done|].
    rewrite perform_all_cons. simpl.
    destruct (perform_record env c s user) as [_ Hstep].
    destruct (about user c) eqn:Habout.
    - rewrite perform_all_cons. apply IH.
      destruct (perform_record env' c s' user) as [_ Hstep'].
      rewrite Hstep, Hstep', Habout. by rewrite Hsame.
    - apply IH. by rewrite Hstep. }
  by apply Hgen.
Qed.

Lemma record_after_window c r :
  (length (from_option recent_messages [] r) ≤ 5)%nat →
  (length (from_option recent_messages [] (record_after c r)) ≤ 5)%nat.
Proof.
  intros Hlen. destruct c as [u why pts now|message now|u];
    cbn [record_after from_option recent_messages].
  - destruct r; exact Hlen.
  - destruct r as [d|]; cbn [from_option] in *; [|lia]. cbv zeta.
    destruct (Nat.leb_spec 5 (length (kept_at now (recent_messages d))));
      cbn [from_option recent_messages]; [done|].
    rewrite length_app. cbn [length]. lia.
  - cbn [length]. lia.
Qed.

(** X5.  The stored window of a member never holds more than five
    readings, after any sequence of ledger calls on a fresh bot. *)
Theorem window_holds_at_most_five (env : Env) (cfg : Config)
    (calls : list LedgerCall) (user : Z) :
  (length (stored_window user (perform_all env calls (new_bot cfg)).2)
   ≤ 5)%nat.
Proof.
  assert (Hgen : ∀ cs s,
    (length (stored_window user s) ≤ 5)%nat →
    (length (stored_window user (perform_all env cs s).2) ≤ 5)%nat).
  { induction cs as [|c cs IH]; intros s Hs; [done|].
    rewrite perform_all_cons. apply IH.
    destruct (perform_record env c s user) as [_ Hstep].
    unfold stored_window in *. rewrite Hstep.
    destruct (about user c); [by apply record_after_window|done]. }
  apply Hgen. unfold stored_window, lookup_record. cbn [suspicious_users new_bot].
  rewrite lookup_empty. cbn [from_option length]. lia.
Qed.

Lemma td_seconds_periodic d k :
  td_seconds (d + k * day_us) = td_seconds d.
Proof. unfold td_seconds, day_us. by rewrite Z.mod_add. Qed.

(** X6.  [is_spam] reads ages through [timedelta.seconds], which drops
    whole days: shifting the clock reading by any number of days changes
    neither the readings that are kept nor the answer.  A reading exactly
    one day old counts like one made now. *)
Theorem is_spam_ignores_whole_days (message : Message) (now k : Z)
    (self : Bot) :
  kept_at (now + k * day_us) (stored_window (author_id message) self)
  = kept_at now (stored_window (author_id message) self)
  ∧ (is_spam message (now + k * day_us) self).1
    = (is_spam message now self).1.
Proof.
  assert (Hkept : ∀ window,
    kept_at (now + k * day_us) window = kept_at now window).
  { intros window. unfold kept_at.
    induction window as [|msg window IH]; simpl; [done|].
    replace (now + k * day_us - msg) with (now - msg + k * day_us) by lia.
    by rewrite td_seconds_periodic, IH. }
  split; [apply Hkept|].
  destruct (suspicious_users self !! author_id message) as [d|] eqn:Hrec.
  - rewrite !(is_spam_known _ _ _ _ Hrec). cbv zeta.
    fold (kept_at (now + k * day_us) (recent_messages d)).
    fold (kept_at now (recent_messages d)). rewrite Hkept.
    by destruct (Nat.leb 5 _).
  - by rewrite !(is_spam_unknown _ _ _ Hrec).
Qed.

(** ** Relations that every handler preserves *)

Section Handling.
Context (env : Env) (age_field : FieldName).
Context (R : Bot → Bot → Prop) `{!PreOrder R}.
Context (may_charge may_clear : Z → Prop) (may_log may_reload : Prop).
Hypothesis R_emit : ∀ x self, silent x → R self (emit x self).
Hypothesis R_alert : ∀ embed, preserves R (send_security_alert env embed).
Hypothesis R_is_spam : ∀ message now,
  may_charge (author_id message) → preserves R (is_spam message now).
Hypothesis R_add : ∀ user why pts now,
  may_charge user → 1 ≤ pts ≤ 3 →
  preserves R (add_suspicion env user why pts now).
Hypothesis R_clear : ∀ user,
  may_clear user → preserves R (clear_suspicion user).
Hypothesis R_log : ∀ e,
  may_log → membership_event e → preserves R (log_security_event env e).
Hypothesis R_reload : ∀ loaded,
  may_reload → preserves R (reload_config loaded).

Lemma preserves_mret {A} (a : A) : preserves R (mret a).
Proof. intros self. reflexivity. Qed.

Lemma preserves_raise {A} e : preserves R (raise (A := A) e).
Proof. intros self. reflexivity. Qed.

Lemma preserves_get : preserves R get.
Proof. intros self. reflexivity. Qed.

Lemma preserves_bind {A B} (m : M A) (f : A → M B) :
  preserves R m → (∀ a, preserves R (f a)) → preserves R (m ≫= f).
Proof.
  intros Hm Hf self. unfold mbind, M_bind. specialize (Hm self).
  destruct (m self) as [[a|e] self1]; simpl in *; [|done].
  etrans; [exact Hm|apply Hf].
Qed.

Lemma preserves_try_except {A} (m : M A) (h : Exn → M A) :
  preserves R m → (∀ e, preserves R (h e)) → preserves R (try_except m h).
Proof.
  intros Hm Hh self. unfold try_except. specialize (Hm self).
  destruct (m self) as [[a|e] self1]; simpl in *; [done|].
  etrans; [exact Hm|apply Hh].
Qed.

Lemma preserves_when c (m : M unit) :
  preserves R m → preserves R (when c m).
Proof. intros Hm. destruct c; [done|apply preserves_mret]. Qed.

Lemma preserves_call x answer : silent x → preserves R (call x answer).
Proof. intros Hx self. unfold call. destruct answer; by apply R_emit. Qed.

Lemma preserves_say ctx reply : preserves R (say ctx reply).
Proof.
  unfold say. destruct (ctx_send ctx reply);
    [apply preserves_raise|apply preserves_mret].
Qed.

Lemma preserves_timedelta n : preserves R (timedelta_minutes n).
Proof.
  unfold timedelta_minutes. destruct (_ && _);
    [apply preserves_mret|apply preserves_raise].
Qed.

Ltac preserve :=
  repeat match goal with
  | |- preserves _ (mret _) => apply preserves_mret
  | |- preserves _ (raise _) => apply preserves_raise
  | |- preserves _ get => apply preserves_get
  | |- preserves _ (when _ _) => apply preserves_when
  | |- preserves _ (mbind _ _) => apply preserves_bind; [|intros ?]
  | |- preserves _ (try_except _ _) => apply preserves_try_except; [|intros ?]
  | |- preserves _ (call _ _) => apply preserves_call; exact I
  | |- preserves _ (say _ _) => apply preserves_say
  | |- preserves _ (timedelta_minutes _) => apply preserves_timedelta
  | |- preserves _ (send_security_alert _ _) => apply R_alert
  | |- preserves _ (match ?x with _ => _ end) => destruct x
  end.

Lemma preserves_process_message message now :
  may_charge (author_id message) →
  preserves R (process_message env message now).
Proof.
  intros Hmay.
  unfold process_message, handle_suspicious_message, handle_spam,
    handle_invite, log_message_event.
  cbv zeta. preserve; try (apply R_add; [done|lia]). by apply R_is_spam.
Qed.

Lemma scan_guilds_io guilds : ∀ self,
  ∃ trace, scan_guilds env guilds self = (Returned tt, add_io trace self).
Proof.
  induction guilds as [|guild guilds IH]; intros self; simpl.
  - exists []. by rewrite add_io_nil.
  - unfold scan_guild_security. cbv zeta.
    assert (Hone : ∃ t,
      when (0 <? member_count guild)
        (when (Qlt_bool (online_percentage guild) 10
               && (100 <? member_count guild))
           (send_security_alert env (low_activity_embed guild))) self
      = (Returned tt, add_io t self)).
    { destruct (0 <? _); simpl; [|exists []; by rewrite add_io_nil].
      destruct (_ && _); simpl; [|exists []; by rewrite add_io_nil].
      rewrite send_security_alert_returns. eauto. }
    destruct Hone as [t Hone]. rewrite (bind_returned _ _ _ _ _ Hone).
    destruct (IH (add_io t self)) as [t' Hrest]. rewrite Hrest.
    exists (t ++ t'). unfold add_io. simpl. by rewrite app_assoc.
Qed.

Lemma perform_security_scan_is_scan guilds self :
  perform_security_scan env guilds self = scan_guilds env guilds self.
Proof.
  unfold perform_security_scan, try_except.
  destruct (scan_guilds_io guilds self) as [trace ->]. done.
Qed.

Lemma preserves_scan_guilds guilds : preserves R (scan_guilds env guilds).
Proof.
  induction guilds as [|guild guilds IH]; simpl; [apply preserves_mret|].
  unfold scan_guild_security. cbv zeta. by preserve.
Qed.

Lemma handle_preserves ev :
  permitted may_charge may_clear may_log may_reload ev →
  preserves R (handle env age_field ev).
Proof.
  destruct ev as [message now|w member now|member now|guilds
                  |ctx member why now|ctx member duration why now
                  |member|loaded]; simpl; intros Hmay.
  - by apply preserves_process_message.
  - unfold on_member_join, send_welcome_message, check_new_member.
    cbv zeta. preserve. apply R_log; [done|]. split; [by left|done].
  - unfold on_member_remove. apply R_log; [done|]. split; [by right|done].
  - intros self. rewrite perform_security_scan_is_scan.
    apply preserves_scan_guilds.
  - unfold warn_user. cbv zeta. preserve. apply R_add; [done|lia].
  - unfold timeout_user. cbv zeta. preserve. apply R_add; [done|lia].
  - preserve. by apply R_clear.
  - by apply R_reload.
Qed.

End Handling.

(** ** What the primitives leave behind *)

Lemma call_post x answer self : (call x answer self).2 = emit x self.
Proof. unfold call. by destruct answer. Qed.

Lemma is_spam_post message now self :
  (is_spam message now self).2 = self
  ∨ ∃ d,
      lookup_record (author_id message) self = Some d
      ∧ (length (kept_at now (recent_messages d)) < 5)%nat
      ∧ (is_spam message now self).2
        = set_suspicious_users
            <[author_id message :=
                mkUserData (total_points d) (reasons d)
                           (kept_at now (recent_messages d) ++ [now])]> self.
Proof.
  unfold lookup_record.
  destruct (suspicious_users self !! author_id message) as [d|] eqn:Hrec.
  - rewrite (is_spam_known _ _ _ _ Hrec). cbv zeta.
    fold (kept_at now (recent_messages d)).
    destruct (Nat.leb_spec 5 (length (kept_at now (recent_messages d))));
      [by left|right]. by exists d.
  - left. by rewrite (is_spam_unknown _ _ _ Hrec).
Qed.

Lemma add_suspicion_post env user why pts now self :
  ∃ trace,
    (add_suspicion env user why pts now self).2
    = add_io trace
        (set_suspicious_users <[user := charged user why pts now self]> self)
    ∧ (truthy_id (log_channel_id (config self)) = None → trace = []).
Proof.
  rewrite add_suspicion_returns. eexists. split; [done|].
  intros Hnone. destruct (_ <=? _); [|done].
  unfold alert_io. by rewrite Hnone.
Qed.

Lemma clear_suspicion_post user self :
  (clear_suspicion user self).2 = self
  ∨ (clear_suspicion user self).2 = set_suspicious_users (delete user) self.
Proof.
  rewrite clear_suspicion_returns.
  destruct (lookup_record user self); [by right|by left].
Qed.

Lemma log_security_event_post env e self :
  ∃ k,
    (log_security_event env e self).2
    = add_io [DbLogEvent e]
        (set_security_events (λ l, drop k (l ++ [e])) self).
Proof.
  destruct (db_log_event env e) as [x|] eqn:Hsink.
  - exists 0%nat. by rewrite (log_security_event_raised _ _ _ _ Hsink).
  - eexists. by rewrite (log_security_event_stored _ _ _ Hsink).
Qed.

Lemma sent_app t1 t2 : sent (t1 ++ t2) = sent t1 ++ sent t2.
Proof. unfold sent. apply omap_app. Qed.

(** ** The relations are preorders *)

#[local] Instance same_record_preorder user : PreOrder (same_record user).
Proof.
  split; [by intros ?|]. intros a b c Hab Hbc. unfold same_record in *.
  congruence.
Qed.

#[local] Instance same_log_preorder : PreOrder same_log.
Proof.
  split; [by intros ?|]. intros a b c Hab Hbc. unfold same_log in *.
  congruence.
Qed.

#[local] Instance same_config_preorder : PreOrder same_config.
Proof.
  split; [by intros ?|]. intros a b c Hab Hbc. unfold same_config in *.
  congruence.
Qed.

#[local] Instance unheard_preorder : PreOrder unheard.
Proof.
  split; [by intros ? ?|]. intros a b c Hab Hbc Ha.
  destruct (Hab Ha) as (Hb & Hs & He). destruct (Hbc Hb) as (Hc & Hs' & He').
  split; [done|]. split; congruence.
Qed.

#[local] Instance keeps_preorder (I : Bot → Prop) : PreOrder (keeps I).
Proof. split; [by intros ? ?|]. intros a b c Hab Hbc Ha. auto. Qed.

#[local] Instance grown_preorder user : PreOrder (grown user).
Proof.
  split.
  - intros a. exists []. rewrite app_nil_r. simpl. split; [done|].
    split; [lia|constructor].
  - intros a b c (m1 & Hr1 & Ht1 & Hp1) (m2 & Hr2 & Ht2 & Hp2).
    exists (m1 ++ m2). rewrite Hr2, Hr1, Ht2, Ht1, sum_points_app, app_assoc.
    split; [done|]. split; [lia|by apply Forall_app].
Qed.

(** ** Each relation, for every handler *)

Lemma handle_same_record env age_field other ev :
  subject ev ≠ Some other →
  preserves (same_record other) (handle env age_field ev).
Proof.
  intros Hsubject.
  apply (handle_preserves env age_field (same_record other)
           (λ u, u ≠ other) (λ u, u ≠ other) True True).
  - by intros x self _.
  - intros embed self. by rewrite send_security_alert_returns.
  - intros message now Hne self.
    destruct (is_spam_post message now self) as [->|(d & _ & _ & ->)];
      [done|].
    unfold same_record, lookup_record. simpl. by rewrite lookup_insert_ne.
  - intros user why pts now Hne _ self.
    destruct (add_suspicion_post env user why pts now self) as (t & -> & _).
    unfold same_record, lookup_record. simpl. by rewrite lookup_insert_ne.
  - intros user Hne self.
    destruct (clear_suspicion_post user self) as [->| ->]; [done|].
    unfold same_record, lookup_record. simpl. by rewrite lookup_delete_ne.
  - intros e _ _ self.
    by destruct (log_security_event_post env e self) as (k & ->).
  - by intros loaded _ self.
  - destruct ev; simpl in *; try done; congruence.
Qed.

Lemma handle_same_log env age_field ev :
  (∀ w member now, ev ≠ Joined w member now) →
  (∀ member now, ev ≠ Left member now) →
  preserves same_log (handle env age_field ev).
Proof.
  intros Hjoin Hleave.
  apply (handle_preserves env age_field same_log
           (λ _, True) (λ _, True) False True).
  - by intros x self _.
  - intros embed self. by rewrite send_security_alert_returns.
  - intros message now _ self.
    by destruct (is_spam_post message now self) as [->|(d & _ & _ & ->)].
  - intros user why pts now _ _ self.
    by destruct (add_suspicion_post env user why pts now self) as (t & -> & _).
  - intros user _ self.
    by destruct (clear_suspicion_post user self) as [->| ->].
  - by intros e [].
  - by intros loaded _ self.
  - destruct ev; simpl; try done; [by eapply Hjoin|by eapply Hleave].
Qed.

Lemma handle_same_config env age_field ev :
  (∀ loaded, ev ≠ Reloaded loaded) →
  preserves same_config (handle env age_field ev).
Proof.
  intros Hreload.
  apply (handle_preserves env age_field same_config
           (λ _, True) (λ _, True) True False).
  - by intros x self _.
  - intros embed self. by rewrite send_security_alert_returns.
  - intros message now _ self.
    by destruct (is_spam_post message now self) as [->|(d & _ & _ & ->)].
  - intros user why pts now _ _ self.
    by destruct (add_suspicion_post env user why pts now self) as (t & -> & _).
  - intros user _ self.
    by destruct (clear_suspicion_post user self) as [->| ->].
  - intros e _ _ self.
    by destruct (log_security_event_post env e self) as (k & ->).
  - by intros loaded [].
  - destruct ev; simpl; try done. by eapply Hreload.
Qed.

Lemma unheard_emit x self : silent x → unheard self (emit x self).
Proof.
  intros Hx Hnone. split; [done|]. simpl.
  rewrite sent_app, List.filter_app. destruct x; simpl in *; try done;
    by rewrite !app_nil_r.
Qed.

Lemma handle_unheard env age_field ev :
  (∀ loaded, ev ≠ Reloaded loaded) →
  preserves unheard (handle env age_field ev).
Proof.
  intros Hreload.
  apply (handle_preserves env age_field unheard
           (λ _, True) (λ _, True) True False).
  - intros x self. apply unheard_emit.
  - intros embed self Hnone. rewrite send_security_alert_returns.
    unfold alert_io. rewrite Hnone. by rewrite add_io_nil.
  - intros message now _ self Hnone.
    by destruct (is_spam_post message now self) as [->|(d & _ & _ & ->)].
  - intros user why pts now _ _ self Hnone.
    destruct (add_suspicion_post env user why pts now self)
      as (t & -> & Ht).
    rewrite (Ht Hnone), add_io_nil. done.
  - intros user _ self Hnone.
    by destruct (clear_suspicion_post user self) as [->| ->].
  - intros e _ _ self Hnone.
    destruct (log_security_event_post env e self) as (k & ->).
    split; [done|]. simpl. rewrite sent_app, List.filter_app. simpl.
    by rewrite !app_nil_r.
  - by intros loaded [].
  - destruct ev; simpl; try done. by eapply Hreload.
Qed.

Lemma handle_log_ok env age_field ev :
  preserves (keeps log_ok) (handle env age_field ev).
Proof.
  apply (handle_preserves env age_field (keeps log_ok)
           (λ _, True) (λ _, True) True True).
  - intros x self _ Hok. exact Hok.
  - intros embed self Hok. rewrite send_security_alert_returns. exact Hok.
  - intros message now _ self Hok.
    destruct (is_spam_post message now self) as [->|(d & _ & _ & ->)];
      exact Hok.
  - intros user why pts now _ _ self Hok.
    destruct (add_suspicion_post env user why pts now self) as (t & -> & _).
    exact Hok.
  - intros user _ self Hok.
    destruct (clear_suspicion_post user self) as [->| ->]; exact Hok.
  - intros e _ He self Hok.
    destruct (log_security_event_post env e self) as (k & ->).
    unfold log_ok in *. simpl. apply Forall_drop, Forall_app.
    split; [done|by constructor].
  - intros loaded _ self Hok. exact Hok.
  - by destruct ev.
Qed.

Lemma charged_well user why pts now self :
  ledger_ok self → 1 ≤ pts ≤ 3 →
  well_charged (charged user why pts now self).
Proof.
  intros Hok Hpts. unfold charged, scan_total_points, scan_reasons.
  destruct (lookup_record user self) as [d|] eqn:Hrec; simpl.
  - destruct (Hok user d Hrec) as (Hne & Hall & Hsum).
    split; [by destruct (reasons d)|]. split.
    + apply Forall_app. split; [done|by constructor].
    + simpl. rewrite sum_points_app, Hsum. simpl. lia.
  - split; [done|]. split; [by constructor|simpl; lia].
Qed.

Lemma handle_ledger_ok env age_field ev :
  preserves (keeps ledger_ok) (handle env age_field ev).
Proof.
  apply (handle_preserves env age_field (keeps ledger_ok)
           (λ _, True) (λ _, True) True True).
  - intros x self _ Hok. exact Hok.
  - intros embed self Hok. rewrite send_security_alert_returns. exact Hok.
  - intros message now _ self Hok.
    destruct (is_spam_post message now self) as [->|(d & Hd & _ & ->)];
      [done|].
    intros user d'. unfold lookup_record. simpl.
    destruct (decide (author_id message = user)) as [<-|Hne].
    + rewrite lookup_insert_eq. intros [= <-]. exact (Hok _ _ Hd).
    + rewrite lookup_insert_ne by done. apply Hok.
  - intros user why pts now _ Hpts self Hok.
    destruct (add_suspicion_post env user why pts now self) as (t & -> & _).
    intros u d'. unfold lookup_record. simpl.
    destruct (decide (user = u)) as [<-|Hne].
    + rewrite lookup_insert_eq. intros [= <-]. by apply charged_well.
    + rewrite lookup_insert_ne by done. apply Hok.
  - intros user _ self Hok.
    destruct (clear_suspicion_post user self) as [->| ->]; [done|].
    intros u d'. unfold lookup_record. simpl.
    intros Hd%lookup_delete_Some. apply (Hok u d'), Hd.
  - intros e _ _ self Hok.
    destruct (log_security_event_post env e self) as (k & ->). exact Hok.
  - intros loaded _ self Hok. exact Hok.
  - by destruct ev.
Qed.

Lemma grown_same user self self' :
  lookup_record user self' = lookup_record user self → grown user self self'.
Proof.
  intros Hsame. exists []. unfold scan_reasons, scan_total_points.
  rewrite Hsame, app_nil_r. simpl. split; [done|]. split; [lia|constructor].
Qed.

Lemma handle_grown env age_field user ev :
  ev ≠ Cleared user →
  preserves (grown user) (handle env age_field ev).
Proof.
  intros Hclear.
  apply (handle_preserves env age_field (grown user)
           (λ _, True) (λ u, u ≠ user) True True).
  - intros x self _. by apply grown_same.
  - intros embed self. rewrite send_security_alert_returns.
    by apply grown_same.
  - intros message now _ self.
    destruct (is_spam_post message now self) as [->|(d & Hd & _ & ->)];
      [done|].
    exists []. unfold scan_reasons, scan_total_points, lookup_record in *.
    simpl. rewrite app_nil_r.
    destruct (decide (author_id message = user)) as [<-|Hne].
    + rewrite lookup_insert_eq, Hd. simpl.
      split; [done|]. split; [lia|constructor].
    + rewrite lookup_insert_ne by done.
      split; [done|]. split; [lia|constructor].
  - intros u why pts now _ Hpts self.
    destruct (add_suspicion_post env u why pts now self) as (t & -> & _).
    destruct (decide (u = user)) as [->|Hne].
    + exists [mkReason why pts now].
      unfold scan_reasons, scan_total_points, lookup_record, charged. simpl.
      rewrite lookup_insert_eq. simpl.
      split; [done|]. split; [|by constructor].
      unfold scan_total_points, lookup_record. lia.
    + apply grown_same. unfold lookup_record. simpl.
      by rewrite lookup_insert_ne.
  - intros u Hne self.
    destruct (clear_suspicion_post u self) as [->| ->]; [done|].
    apply grown_same. unfold lookup_record. simpl.
    by rewrite lookup_delete_ne.
  - intros e _ _ self.
    destruct (log_security_event_post env e self) as (k & ->).
    by apply grown_same.
  - intros loaded _ self. by apply grown_same.
  - destruct ev; simpl; try done. congruence.
Qed.

(** ** The bot over whole runs *)

Lemma filter_none {A} (f : A → bool) (l : list A) :
  Forall (λ x, f x = false) l → List.filter f l = [].
Proof. induction 1 as [|x l Hx _ IH]; simpl; [done|]. by rewrite Hx. Qed.

Lemma after_cons env age_field ev evs self :
  after env age_field (ev :: evs) self
  = after env age_field evs (handle env age_field ev self).2.
Proof. reflexivity. Qed.

Lemma after_keeps env age_field (I : Bot → Prop) evs : ∀ self,
  (∀ ev, preserves (keeps I) (handle env age_field ev)) →
  I self → I (after env age_field evs self).
Proof.
  induction evs as [|ev evs IH]; intros self Hstep Hself; [done|].
  rewrite after_cons. apply IH; [done|]. by apply Hstep.
Qed.

(** X7.  Whatever an external call answers and however the handler ends,
    handling an event leaves the record of every member other than the
    event's subject as it was; only joins and leaves change the event
    log; only a reload changes the configuration. *)
Theorem handlers_touch_only_their_subject (env : Env) (age_field : FieldName)
    (ev : Event) (other : Z) (self : Bot) :
  (subject ev ≠ Some other →
   lookup_record other (handle env age_field ev self).2
   = lookup_record other self)
  ∧ (writes_log ev = false →
     security_events (handle env age_field ev self).2 = security_events self)
  ∧ (reloads ev = false →
     config (handle env age_field ev self).2 = config self).
Proof.
  split; [|split].
  - intros Hsubject. by apply (handle_same_record env age_field other ev).
  - intros Hlog. apply (handle_same_log env age_field ev);
      intros; intros ->; done.
  - intros Hreload. apply (handle_same_config env age_field ev).
    intros loaded ->. done.
Qed.

(** X8.  Only member joins and leaves are ever recorded: after any run of
    events on a fresh bot every logged event has type MEMBER_JOIN or
    MEMBER_LEAVE and level LOW.  So a [logs] query whose filter is not
    "all" and which [str.upper] turns into neither of these two finds
    nothing, and one whose filter it turns into one of them lists events
    of that type only. *)
Theorem log_holds_membership_events_only (env : Env) (age_field : FieldName)
    (cfg : Config) (evs : list Event) (filter_type : string) (limit : Z) :
  let self := after env age_field evs (new_bot cfg) in
  Forall membership_event (security_events self)
  ∧ (filter_type ≠ "all" → str_upper env filter_type ≠ "MEMBER_JOIN" →
     str_upper env filter_type ≠ "MEMBER_LEAVE" →
     show_logs env filter_type limit self = (Returned LogsNotFound, self))
  ∧ (filter_type ≠ "all" →
     ∀ recent,
       (show_logs env filter_type limit self).1 = Returned (LogsEmbed recent) →
       (str_upper env filter_type = "MEMBER_JOIN"
        ∨ str_upper env filter_type = "MEMBER_LEAVE")
       ∧ Forall (λ e, event_type e = str_upper env filter_type) recent).
Proof.
  cbv zeta.
  assert (Hlog : log_ok (after env age_field evs (new_bot cfg))).
  { apply after_keeps; [apply handle_log_ok|]. constructor. }
  split; [exact Hlog|]. split.
  - intros Hall Hjoin Hleave.
    rewrite show_logs_returns. unfold matching.
    destruct (String.eqb_spec filter_type "all") as [|_]; [done|].
    rewrite filter_none; [done|].
    eapply Forall_impl; [exact Hlog|].
    intros e [[He|He] _]; apply String.eqb_neq; congruence.
  - intros Hall recent. rewrite show_logs_returns. unfold matching.
    destruct (String.eqb_spec filter_type "all") as [|_]; [done|].
    set (self := after env age_field evs (new_bot cfg)) in *.
    pose proof (filter_all
      (λ e, String.eqb (event_type e) (str_upper env filter_type))
      (security_events self)) as Hall_match.
    pose proof (filter_sublist
      (λ e, String.eqb (event_type e) (str_upper env filter_type))
      (security_events self)) as Hsub.
    destruct (List.filter _ (security_events self)) as [|e0 rest] eqn:Hmatch;
      [done|].
    simpl. intros [= <-].
    assert (Htypes : Forall (λ e, event_type e = str_upper env filter_type)
                            (e0 :: rest)).
    { eapply Forall_impl; [exact Hall_match|].
      intros e He. by apply String.eqb_eq. }
    split.
    + apply Forall_cons in Htypes as [He0 _].
      assert (He0' : membership_event e0).
      { eapply Forall_forall; [exact Hlog|].
        eapply elem_of_sublist; [|exact Hsub]. apply list_elem_of_here. }
      destruct He0' as [[Hj|Hl] _]; [left|right]; congruence.
    + unfold slice_from. destruct (_ <? 0); by apply Forall_drop.
Qed.

(** X9.  Without a log channel id in the configuration (the default),
    no handler ever calls [channel.send] or logs a failed alert. *)
Theorem no_log_channel_no_alert (env : Env) (age_field : FieldName)
    (ev : Event) (self : Bot) :
  truthy_id (log_channel_id (config self)) = None →
  sent (io (handle env age_field ev self).2) = sent (io self)
  ∧ logged_errors (io (handle env age_field ev self).2)
    = logged_errors (io self).
Proof.
  intros Hnone. destruct (reloads ev) eqn:Hreload.
  - by destruct ev.
  - destruct (handle_unheard env age_field ev) with (self := self)
      as (_ & Hsent & Herr); [|done|done].
    intros loaded ->. done.
Qed.

Lemma no_log_channel_no_alert_witness :
  truthy_id (log_channel_id (config five_seen)) = None
  ∧ sent (io (handle calm FUser (Said (hello 7) 5000000) five_seen).2)
    = sent (io five_seen).
Proof.
  assert (Hnone : truthy_id (log_channel_id (config five_seen)) = None)
    by (vm_compute; reflexivity).
  split; [exact Hnone|].
  exact (proj1 (no_log_channel_no_alert calm FUser (Said (hello 7) 5000000)
                  five_seen Hnone)).
Defined.

(** X10.  After any run of events on a fresh bot, a scan reports a member
    as safe exactly when the member has no record, as dangerous exactly
    when the total is at least 3, and lists reasons exactly when there is
    a record; the reported total is the sum over the stored history. *)
Theorem scan_is_safe_iff_no_record (env : Env) (age_field : FieldName)
    (cfg : Config) (evs : list Event) (member : Z) :
  let self := after env age_field evs (new_bot cfg) in
  ∃ report,
    scan_user member self = (Returned report, self)
    ∧ (report_status report = Safe ↔ lookup_record member self = None)
    ∧ (report_status report = Dangerous ↔ 3 ≤ report_points report)
    ∧ (report_reasons report = None ↔ lookup_record member self = None)
    ∧ report_points report = sum_points (scan_reasons member self)
    ∧ (∀ shown, report_reasons report = Some shown →
         shown = reason <$> drop (length (scan_reasons member self) - 3)
                                 (scan_reasons member self)).
Proof.
  cbv zeta.
  assert (Hok : ledger_ok (after env age_field evs (new_bot cfg))).
  { apply after_keeps; [apply handle_ledger_ok|].
    intros user d. unfold lookup_record. simpl. by rewrite lookup_empty. }
  set (self := after env age_field evs (new_bot cfg)) in *.
  eexists. split; [reflexivity|]. simpl.
  unfold scan_total_points, scan_reasons.
  destruct (lookup_record member self) as [d|] eqn:Hrec; simpl.
  - destruct (Hok member d Hrec) as (Hne & Hall & Hsum).
    assert (Hpos : 1 ≤ sum_points (reasons d)).
    { destruct (reasons d) as [|r l]; [done|]. simpl.
      apply Forall_cons in Hall as [Hr Hl].
      assert (0 ≤ sum_points l); [|lia].
      clear -Hl. induction Hl as [|x l Hx _ IH]; simpl; lia. }
    assert (Hshow :
      match reasons d with
      | [] => None
      | r :: l => Some (reason <$> slice_from (-3) (r :: l))
      end = Some (reason <$> drop (length (reasons d) - 3) (reasons d))).
    { destruct (reasons d) as [|r l]; [done|].
      by rewrite (slice_from_last 3) by lia. }
    rewrite Hshow, Hsum.
    destruct (Z.eqb_spec (sum_points (reasons d)) 0); [lia|].
    destruct (Z.ltb_spec (sum_points (reasons d)) 3);
      repeat split; intros; simplify_eq; first [done|lia].
  - repeat split; intros; simplify_eq; first [done|lia].
Qed.

(** X11.  Suspicion never decays: over any run of events in which the
    member is not cleared, the member's history only grows, by charges of
    1 to 3 points each, and the total never decreases. *)
Theorem suspicion_never_decays (env : Env) (age_field : FieldName)
    (evs : list Event) (user : Z) (self : Bot) :
  Forall (λ ev, ev ≠ Cleared user) evs →
  let self' := after env age_field evs self in
  scan_reasons user self `prefix_of` scan_reasons user self'
  ∧ scan_total_points user self ≤ scan_total_points user self'
  ∧ ∃ more,
      scan_reasons user self' = scan_reasons user self ++ more
      ∧ scan_total_points user self'
        = scan_total_points user self + sum_points more
      ∧ Forall (λ r, 1 ≤ points r ≤ 3) more.
Proof.
  intros Hevs. cbv zeta.
  assert (Hgrown : grown user self (after env age_field evs self)).
  { revert self. induction Hevs as [|ev evs Hev _ IH]; intros self.
    - reflexivity.
    - rewrite after_cons. etrans; [|apply IH].
      by apply handle_grown. }
  destruct Hgrown as (more & Hhist & Htotal & Hpts).
  split; [by exists more|]. split; [|by exists more].
  rewrite Htotal. assert (0 ≤ sum_points more); [|lia].
  clear -Hpts. induction Hpts as [|x l Hx _ IH]; simpl; lia.
Qed.

Lemma suspicion_never_decays_witness :
  Forall (λ ev, ev ≠ Cleared 7) [Said (hello 7) 5000000; Cleared 8]
  ∧ scan_total_points 7 five_seen
    ≤ scan_total_points 7
        (after calm FUser [Said (hello 7) 5000000; Cleared 8] five_seen).
Proof.
  assert (Hevs : Forall (λ ev, ev ≠ Cleared 7)
                        [Said (hello 7) 5000000; Cleared 8]).
  { repeat constructor; discriminate. }
  split; [exact Hevs|].
  exact (proj1 (proj2 (suspicion_never_decays calm FUser _ 7 five_seen Hevs))).
Defined.

(** ** One message *)

Lemma add_io_add_io t1 t2 self :
  add_io t2 (add_io t1 self) = add_io (t1 ++ t2) self.
Proof. unfold add_io. simpl. by rewrite app_assoc. Qed.

Lemma handle_spam_outcome env message self :
  ∃ t, handle_spam env message self
       = (outcome (if default true (auto_moderation (config self))
                   then member_timeout env (author_id message) 5
                   else None),
          add_io t self).
Proof.
  unfold handle_spam. cbv zeta.
  rewrite (bind_returned _ _ _ _ _ (send_security_alert_returns _ _ _)).
  run_monad. simpl.
  destruct (default true (auto_moderation (config self))) eqn:Hauto.
  - destruct (member_timeout env (author_id message) 5);
      unfold emit; simpl; eexists; unfold add_io; simpl;
      rewrite <- app_assoc; reflexivity.
  - by eexists.
Qed.

Lemma handle_invite_outcome env message self :
  ∃ t, handle_invite env message self
       = (outcome (if default true (auto_moderation (config self))
                   then match message_delete env (msg_id message) with
                        | Some e => Some e
                        | None => member_timeout env (author_id message) 10
                        end
                   else None),
          add_io t self).
Proof.
  unfold handle_invite. cbv zeta.
  rewrite (bind_returned _ _ _ _ _ (send_security_alert_returns _ _ _)).
  run_monad. simpl.
  destruct (default true (auto_moderation (config self))) eqn:Hauto.
  - destruct (message_delete env (msg_id message)).
    + unfold emit; simpl; eexists; unfold add_io; simpl;
        rewrite <- app_assoc; reflexivity.
    + destruct (member_timeout env (author_id message) 10);
        unfold emit; simpl; eexists; unfold add_io; simpl;
        rewrite <- !app_assoc; reflexivity.
  - by eexists.
Qed.

(** One optional charge of [process_message], after a handler that only
    talks to the outside world: the charge is made when the detection
    fired and the handler returned. *)
Lemma charge_stage env (c : bool) (h : M unit) failure user why pts now self :
  (∃ t, h self = (outcome failure, add_io t self)) →
  let made := if c then match failure with None => true | _ => false end
              else false in
  ∃ self',
    when c (h;; add_suspicion env user why pts now) self
    = (outcome (if c then failure else None), self')
    ∧ config self' = config self
    ∧ stored_window user self' = stored_window user self
    ∧ scan_reasons user self'
      = scan_reasons user self ++ (if made then [mkReason why pts now] else [])
    ∧ scan_total_points user self'
      = scan_total_points user self + (if made then pts else 0)
    ∧ (made = false → lookup_record user self' = lookup_record user self).
Proof.
  intros [t Ht]. cbv zeta. destruct c; simpl.
  - destruct failure as [e|]; simpl in *.
    + rewrite (bind_raised _ _ _ _ _ Ht). eexists. split; [done|].
      rewrite app_nil_r, Z.add_0_r. repeat split; done.
    + rewrite (bind_returned _ _ _ _ _ Ht), add_suspicion_returns.
      eexists. split; [done|].
      unfold stored_window, scan_reasons, scan_total_points, lookup_record,
        charged. simpl. rewrite lookup_insert_eq. simpl.
      repeat split; done.
  - exists self. rewrite app_nil_r, Z.add_0_r. repeat split; done.
Qed.

Lemma is_spam_stage message now self :
  ∃ self',
    is_spam message now self = (Returned (burst_at message now self), self')
    ∧ config self' = config self
    ∧ scan_reasons (author_id message) self'
      = scan_reasons (author_id message) self
    ∧ scan_total_points (author_id message) self'
      = scan_total_points (author_id message) self
    ∧ (lookup_record (author_id message) self = None →
       lookup_record (author_id message) self' = None).
Proof.
  unfold burst_at, stored_window, scan_reasons, scan_total_points,
    lookup_record.
  destruct (suspicious_users self !! author_id message) as [d|] eqn:Hrec.
  - rewrite (is_spam_known _ _ _ _ Hrec). cbv zeta.
    cbn [from_option]. fold (kept_at now (recent_messages d)).
    destruct (Nat.leb 5 (length (kept_at now (recent_messages d))));
      eexists; (split; [done|]); simpl.
    + by rewrite Hrec.
    + rewrite lookup_insert_eq. simpl. repeat split; done.
  - rewrite (is_spam_unknown _ _ _ Hrec). exists self. simpl.
    rewrite Hrec. repeat split; done.
Qed.

(** X12.  [process_message] returns exactly when none of the external
    calls this message needs raises (the timeout of a burst and the
    deletion and timeout of an invite under auto-moderation, and the sink
    write), and raises the first exception otherwise.  When it returns it
    has charged the author exactly the detections of this message, in
    order: 1 point for a keyword, 2 for a burst in the window stored
    before the message, 3 for an invite link; at most 6 points; and a
    member without a record whose message triggers nothing still has
    none.  However it ends, the charges made are an initial part of these
    detections. *)
Theorem process_message_charges (env : Env) (message : Message) (now : Z)
    (self : Bot) :
  let author := author_id message in
  let detections := charges_of env message now self in
  let self' := (process_message env message now self).2 in
  (process_message env message now self).1
  = outcome (message_failure env message now self)
  ∧ (message_failure env message now self = None →
     scan_reasons author self' = scan_reasons author self ++ detections
     ∧ scan_total_points author self'
       = scan_total_points author self + sum_points detections
     ∧ (detections = [] → lookup_record author self = None →
        lookup_record author self' = None))
  ∧ 0 ≤ sum_points detections ≤ 6
  ∧ ∃ made,
      made `prefix_of` detections
      ∧ scan_reasons author self' = scan_reasons author self ++ made
      ∧ scan_total_points author self'
        = scan_total_points author self + sum_points made.
Proof.
  cbv zeta. unfold process_message, message_failure, charges_of. cbv zeta.
  set (user := author_id message).
  set (kw := is_suspicious_content (str_lower env (content message))).
  set (inv := contains_invite (str_lower env (content message))).
  set (auto := default true (auto_moderation (config self))).
  destruct (charge_stage env kw (handle_suspicious_message env message) None
              user "suspicious_content" 1 now self)
    as (s1 & E1 & C1 & W1 & R1 & T1 & L1).
  { unfold handle_suspicious_message. cbv zeta.
    rewrite send_security_alert_returns. eauto. }
  assert (E1' : when kw
                  (handle_suspicious_message env message;;
                   add_suspicion env user "suspicious_content" 1 now) self
                = (Returned tt, s1)) by (rewrite E1; by destruct kw).
  clear E1. rewrite (bind_returned _ _ _ _ _ E1').
  destruct (is_spam_stage message now s1) as (s2 & E2 & C2 & R2 & T2 & L2).
  assert (Hburst : burst_at message now s1 = burst_at message now self).
  { unfold burst_at. fold user. by rewrite W1. }
  rewrite Hburst in E2. rewrite (bind_returned _ _ _ _ _ E2).
  set (spam := burst_at message now self) in *.
  fold user in R2, T2, L2.
  destruct (handle_spam_outcome env message s2) as [t2 H2].
  rewrite C2, C1 in H2. fold auto user in H2.
  destruct (charge_stage env spam (handle_spam env message) _
              user "spam" 2 now s2 (ex_intro _ t2 H2))
    as (s3 & E3 & C3 & W3 & R3 & T3 & L3).
  destruct (handle_invite_outcome env message s3) as [t3 H3].
  rewrite C3, C2, C1 in H3. fold auto user in H3.
  destruct (charge_stage env inv (handle_invite env message) _
              user "invite_link" 3 now s3 (ex_intro _ t3 H3))
    as (s4 & E4 & C4 & W4 & R4 & T4 & L4).
  assert (Hsum : 0 ≤ sum_points
    ((if kw then [mkReason "suspicious_content" 1 now] else [])
     ++ (if spam then [mkReason "spam" 2 now] else [])
     ++ (if inv then [mkReason "invite_link" 3 now] else [])) ≤ 6).
  { rewrite !sum_points_app. destruct kw, spam, inv; simpl; lia. }
  assert (Hkw : (if kw then true else false) = kw) by (by destruct kw).
  rewrite Hkw in R1, T1, L1.
  destruct spam eqn:Hspam, auto eqn:Hauto; cbn [andb app] in *;
    try destruct (member_timeout env user 5) as [e2|] eqn:Ht5;
    cbn [outcome] in E3.
  1: { (* the timeout of the burst is refused *)
    rewrite (bind_raised _ _ _ _ _ E3). cbn [fst snd outcome].
    split; [done|]. split; [done|]. split; [exact Hsum|].
    exists (if kw then [mkReason "suspicious_content" 1 now] else []).
    split; [by apply prefix_app_r|].
    rewrite R3, R2, R1, T3, T2, T1, app_nil_r, Z.add_0_r.
    split; [done|]. destruct kw; simpl; lia. }
  all: rewrite (bind_returned _ _ _ _ _ E3).
  all: destruct inv eqn:Hinv; cbn [andb app] in *.
  all: try destruct (message_delete env (msg_id message)) as [ed|] eqn:Hdel.
  all: try destruct (member_timeout env user 10) as [e10|] eqn:Ht10.
  all: cbn [outcome] in E4.
  all: try (rewrite (bind_raised _ _ _ _ _ E4); cbn [fst snd outcome];
            split; [done|]; split; [done|]; split; [exact Hsum|];
            rewrite R4, R3, R2, R1, T4, T3, T2, T1, ?app_nil_r, ?Z.add_0_r,
              <- ?app_assoc;
            eexists; split;
              [|split; [reflexivity|];
                rewrite ?sum_points_app; destruct kw; simpl; lia];
            eexists; rewrite <- ?app_assoc; reflexivity).
  all: rewrite (bind_returned _ _ _ _ _ E4).
  all: unfold log_message_event, call.
  all: destruct (db_log_message env message) as [es|] eqn:Hsink;
         cbn [fst snd outcome].
  all: change (scan_reasons user (emit (DbLogMessage message) s4))
         with (scan_reasons user s4).
  all: change (scan_total_points user (emit (DbLogMessage message) s4))
         with (scan_total_points user s4).
  all: change (lookup_record user (emit (DbLogMessage message) s4))
         with (lookup_record user s4).
  all: rewrite R4, R3, R2, R1, T4, T3, T2, T1, ?app_nil_r, ?Z.add_0_r,
         <- ?app_assoc.
  all: split; [done|].
  all: split;
         [first [done|intros _; split; [done|]; split;
                   [rewrite ?sum_points_app; destruct kw; simpl; lia|];
                 destruct kw; try done; intros _ Hnone;
                 rewrite L4, L3 by done; apply L2; by rewrite L1]|].
  all: split; [rewrite ?sum_points_app; destruct kw; simpl; lia|].
  all: eexists; split; [reflexivity|]; split; [done|];
         rewrite ?sum_points_app; destruct kw; simpl; lia.
Qed.

Lemma process_message_charges_witness :
  message_failure forbidden (shout 7) 0 (new_bot default_config) = None
  ∧ (process_message forbidden (shout 7) 0 (new_bot default_config)).1
    = Returned tt
  ∧ scan_total_points 7
      (process_message forbidden (shout 7) 0 (new_bot default_config)).2
    = 1
  ∧ message_failure calm (hello 7) 5000000 five_seen = None
  ∧ scan_total_points 7 (process_message calm (hello 7) 5000000 five_seen).2
    = scan_total_points 7 five_seen + 2.
Proof.
  assert (Hquiet : message_failure forbidden (shout 7) 0
                     (new_bot default_config) = None)
    by (vm_compute; reflexivity).
  assert (Hcalm : message_failure calm (hello 7) 5000000 five_seen = None)
    by (vm_compute; reflexivity).
  destruct (process_message_charges forbidden (shout 7) 0
              (new_bot default_config)) as (Hrun & Hcharged & _).
  destruct (Hcharged Hquiet) as (_ & Htotal & _).
  destruct (process_message_charges calm (hello 7) 5000000 five_seen)
    as (_ & Hcharged' & _).
  destruct (Hcharged' Hcalm) as (_ & Htotal' & _).
  split; [exact Hquiet|]. split; [by rewrite Hrun, Hquiet|].
  change (author_id (shout 7)) with 7 in Htotal.
  split; [rewrite Htotal; vm_compute; reflexivity|].
  split; [exact Hcalm|].
  change (author_id (hello 7)) with 7 in Htotal'. rewrite Htotal'.
  vm_compute. reflexivity.
Defined.

Lemma clean_message_without_record env message now self :
  clean env message = true →
  lookup_record (author_id message) self = None →
  (process_message env message now self).2 = emit (DbLogMessage message) self.
Proof.
  unfold clean. rewrite andb_true_iff, !negb_true_iff. intros [Hkw Hinv] Hrec.
  unfold process_message. cbv zeta. rewrite Hkw, Hinv.
  unfold when, mbind, M_bind, mret, M_ret. cbv beta iota.
  rewrite (is_spam_unknown _ now _ Hrec). cbv beta iota.
  unfold log_message_event. apply call_post.
Qed.

(** X13.  A member without a record gets one only through a message of
    their own whose lower-cased text ([str.lower]) holds a keyword or an
    invite link, or through a moderator's warning or timeout.  However
    many other messages the member sends, and however fast, the member
    stays without a record: the burst detector never sees them. *)
Theorem unflagged_members_are_never_tracked (env : Env)
    (age_field : FieldName) (evs : list Event) (user : Z) (self : Bot) :
  Forall (harmless_for env user) evs →
  lookup_record user self = None →
  lookup_record user (after env age_field evs self) = None.
Proof.
  intros Hevs. revert self.
  induction Hevs as [|ev evs Hev _ IH]; intros self Hrec; [done|].
  rewrite after_cons. apply IH.
  destruct (decide (subject ev = Some user)) as [Hsubject|Hother].
  - destruct ev as [message now| | | |ctx member why now
                    |ctx member duration why now|member|];
      simpl in *; simplify_eq.
    + rewrite clean_message_without_record by auto. exact Hrec.
    + unfold mbind, M_bind.
      pose proof (clear_suspicion_gone user self) as Hgone.
      by destruct (clear_suspicion user self) as [[r|e] self1].
  - rewrite <- Hrec. by apply (handle_same_record env age_field user ev).
Qed.

Lemma unflagged_members_are_never_tracked_witness :
  Forall (harmless_for calm 8)
    [Said (hello 8) 0; Said (hello 8) 1; Said (hello 8) 2; Said (hello 8) 3;
     Said (hello 8) 4; Said (hello 8) 5; Said (hello 8) 6]
  ∧ lookup_record 8 five_seen = None
  ∧ lookup_record 8
      (after calm FUser
         [Said (hello 8) 0; Said (hello 8) 1; Said (hello 8) 2;
          Said (hello 8) 3; Said (hello 8) 4; Said (hello 8) 5;
          Said (hello 8) 6] five_seen) = None.
Proof.
  assert (Hevs : Forall (harmless_for calm 8)
    [Said (hello 8) 0; Said (hello 8) 1; Said (hello 8) 2; Said (hello 8) 3;
     Said (hello 8) 4; Said (hello 8) 5; Said (hello 8) 6]).
  { repeat constructor; intros _; reflexivity. }
  assert (Hrec : lookup_record 8 five_seen = None) by (vm_compute; reflexivity).
  split; [exact Hevs|]. split; [exact Hrec|].
  exact (unflagged_members_are_never_tracked calm FUser _ 8 five_seen
           Hevs Hrec).
Defined.

(** ** Recording an event, whatever the sink does *)

(** X14.  [log_security_event] appends the event before it writes to the
    sink.  When the sink accepts, the call returns and leaves at most
    1000 entries, the last 1000 of the old log followed by the event,
    whatever the old length was.  When the sink raises, the call raises
    the same exception and leaves the old log followed by the event,
    untrimmed. *)
Theorem log_security_event_outcomes (env : Env) (event : SecurityEvent)
    (self : Bot) :
  match db_log_event env event with
  | None =>
      (log_security_event env event self).1 = Returned tt
      ∧ security_events (log_security_event env event self).2
        = drop (length (security_events self ++ [event]) - 1000)
               (security_events self ++ [event])
      ∧ (length (security_events (log_security_event env event self).2)
         ≤ 1000)%nat
  | Some e =>
      (log_security_event env event self).1 = Raised e
      ∧ security_events (log_security_event env event self).2
        = security_events self ++ [event]
  end
  ∧ suspicious_users (log_security_event env event self).2
    = suspicious_users self
  ∧ io (log_security_event env event self).2
    = io self ++ [DbLogEvent event].
Proof.
  destruct (db_log_event env event) as [e|] eqn:Hsink.
  - by rewrite (log_security_event_raised _ _ _ _ Hsink).
  - rewrite (log_security_event_stored _ _ _ Hsink). simpl.
    repeat split; try done. rewrite length_drop. lia.
Qed.

(** ** The periodic scan *)

Lemma scan_guild_security_returns env guild self :
  scan_guild_security env guild self
  = (Returned tt,
     add_io (if low_activity_spec (online_members guild) (member_count guild)
             then alert_io env (config self) (low_activity_embed guild)
             else []) self).
Proof.
  unfold scan_guild_security, low_activity_spec, online_percentage.
  cbv zeta. unfold when.
  destruct (Z.ltb_spec 0 (member_count guild)) as [Hpos|Hnone].
  - rewrite percentage_below_ten, fraction_below_tenth by done.
    rewrite andb_comm. destruct (_ && _).
    + apply send_security_alert_returns.
    + by rewrite add_io_nil.
  - destruct (Z.ltb_spec 100 (member_count guild)); [lia|].
    by rewrite add_io_nil.
Qed.

Lemma sent_alert_io env cfg embed id :
  truthy_id (log_channel_id cfg) = Some id → get_channel env id = true →
  sent (alert_io env cfg embed) = [embed].
Proof.
  intros Hid Hfound. unfold alert_io. rewrite Hid, Hfound.
  by destruct (channel_send env id embed).
Qed.

Lemma scan_guilds_sent env guilds : ∀ self,
  ∃ trace,
    scan_guilds env guilds self = (Returned tt, add_io trace self)
    ∧ (∀ id, truthy_id (log_channel_id (config self)) = Some id →
             get_channel env id = true →
             sent trace
             = low_activity_embed
               <$> List.filter
                     (λ g, low_activity_spec (online_members g)
                                             (member_count g)) guilds)
    ∧ (truthy_id (log_channel_id (config self)) = None → trace = []).
Proof.
  induction guilds as [|guild guilds IH]; intros self.
  - exists []. by rewrite add_io_nil.
  - simpl scan_guilds.
    rewrite (bind_returned _ _ _ _ _ (scan_guild_security_returns _ _ _)).
    destruct (IH (add_io
                    (if low_activity_spec (online_members guild)
                                          (member_count guild)
                     then alert_io env (config self) (low_activity_embed guild)
                     else []) self)) as (rest & -> & Hsent & Hnone).
    rewrite add_io_add_io. eexists. split; [done|]. split.
    + intros id Hid Hfound. rewrite sent_app, (Hsent id Hid Hfound). simpl.
      destruct (low_activity_spec _ _); [|done].
      by rewrite (sent_alert_io _ _ _ id).
    + intros Hno. rewrite (Hnone Hno). unfold alert_io. rewrite Hno.
      by destruct (low_activity_spec _ _).
Qed.

(** X15.  The periodic scan never raises and touches only the outside
    world.  With a log channel that is configured and found it hands to
    [channel.send] one low-activity embed for each guild with more than
    100 members and less than a tenth of them online, in guild order, and
    nothing for the other guilds; a member is online when the member's
    status is not offline, and the embed carries the guild's name, that
    count with the member count, and their ratio as a percentage.
    Without a log channel id the scan makes no external call at all. *)
Theorem scan_alerts_low_activity_guilds (env : Env) (guilds : list Guild)
    (self : Bot) :
  let online_count guild := present (members guild) in
  let low guild := low_activity_spec (online_count guild) (member_count guild) in
  ∃ trace,
    perform_security_scan env guilds self = (Returned tt, add_io trace self)
    ∧ (∀ id, truthy_id (log_channel_id (config self)) = Some id →
             get_channel env id = true →
             sent trace
             = (λ guild,
                  mkEmbed LowActivity
                    [(FGuild, VText (guild_name guild));
                     (FOnline,
                      VRatio (online_count guild) (member_count guild));
                     (FPercent,
                      VPercent1 (inject_Z (online_count guild)
                                 / inject_Z (member_count guild) * 100)%Q)])
               <$> List.filter low guilds)
    ∧ (truthy_id (log_channel_id (config self)) = None → trace = [])
    ∧ (∀ guild, low guild = true
                ↔ 100 < member_count guild
                  ∧ 10 * online_count guild < member_count guild)
    ∧ List.filter low [busy_guild; small_guild; away_guild] = [busy_guild].
Proof.
  cbv zeta. rewrite perform_security_scan_is_scan.
  destruct (scan_guilds_sent env guilds self) as (trace & Hrun & Hsent & Hnone).
  exists trace. split; [exact Hrun|]. split; [|split; [exact Hnone|split]].
  - intros id Hid Hfound. rewrite (Hsent id Hid Hfound).
    rewrite (List.filter_ext _
               (λ g, low_activity_spec (present (members g)) (member_count g)))
      by (intros g; by rewrite online_members_present).
    clear. generalize (List.filter
      (λ g, low_activity_spec (present (members g)) (member_count g)) guilds).
    intros l. induction l as [|g l IH]; [done|].
    rewrite !fmap_cons, IH. f_equal.
    unfold low_activity_embed, online_percentage.
    by rewrite online_members_present.
  - intros guild. unfold low_activity_spec.
    destruct (Z.ltb_spec 100 (member_count guild)) as [Hmany|Hfew]; simpl.
    + rewrite fraction_below_tenth by lia. rewrite Z.ltb_lt.
      split; [by split|by intros [_ ?]].
    + split; [done|lia].
  - vm_compute. reflexivity.
Qed.

(** ** Moderator commands *)

Lemma try_except_returned {A} (m : M A) (h : Exn → M A) self a self' :
  m self = (Returned a, self') → try_except m h self = (Returned a, self').
Proof. intros H. unfold try_except. by rewrite H. Qed.

Lemma try_except_raised {A} (m : M A) (h : Exn → M A) self e self' :
  m self = (Raised e, self') → try_except m h self = h e self'.
Proof. intros H. unfold try_except. by rewrite H. Qed.

(** X16.  [warn_user] sends its confirmation first.  When that send
    returns, the member is charged 2 points for "manual_warning" and the
    command returns the confirmation; when it raises, the command raises
    the same exception and nothing is charged. *)
Theorem warn_user_outcomes (env : Env) (ctx : Ctx) (member : Z)
    (why : string) (now : Z) (self : Bot) :
  match ctx_send ctx (WarningIssued member (ctx_author ctx) why) with
  | None =>
      (warn_user env ctx member why now self).1
        = Returned (WarningIssued member (ctx_author ctx) why)
      ∧ lookup_record member (warn_user env ctx member why now self).2
        = Some (charged member "manual_warning" 2 now self)
  | Some e => warn_user env ctx member why now self = (Raised e, self)
  end.
Proof.
  unfold warn_user, say. cbv zeta.
  destruct (ctx_send ctx _) as [e|]; [done|].
  rewrite (bind_returned (mret tt) _ self self tt eq_refl).
  rewrite (bind_returned _ _ _ _ _ (add_suspicion_returns _ _ _ _ _ _)).
  split; [done|]. unfold lookup_record. simpl. apply lookup_insert_eq.
Qed.

(** X17.  [timeout_user] charges 3 points for "manual_timeout" only when
    the duration is in the range of [timedelta], [Member.timeout] returns
    and the confirmation is sent.  When any of the three fails the
    failure is reported to the moderator and nothing is charged, also
    when the member was already timed out; the command raises only when
    that report cannot be sent.  Out of range, no timeout is attempted. *)
Theorem timeout_user_outcomes (env : Env) (ctx : Ctx) (member duration : Z)
    (why : string) (now : Z) (self : Bot) :
  match timeout_failure env ctx member duration why with
  | None =>
      (timeout_user env ctx member duration why now self).1
        = Returned (TimeoutIssued member (ctx_author ctx) duration why)
      ∧ lookup_record member
          (timeout_user env ctx member duration why now self).2
        = Some (charged member "manual_timeout" 3 now self)
  | Some e =>
      (timeout_user env ctx member duration why now self).1
        = match ctx_send ctx (TimeoutFailed e) with
          | None => Returned (TimeoutFailed e)
          | Some e' => Raised e'
          end
      ∧ suspicious_users
          (timeout_user env ctx member duration why now self).2
        = suspicious_users self
  end
  ∧ io (timeout_user env ctx member duration why now self).2
    = io self
      ++ (if (-999999999 <=? duration `div` 1440)
             && (duration `div` 1440 <=? 999999999)
          then MemberTimeout member duration ::
               match timeout_failure env ctx member duration why with
               | None =>
                   if threshold self <=? scan_total_points member self + 3
                   then alert_io env (config self)
                          (high_suspicion_embed env member
                             (charged member "manual_timeout" 3 now self))
                   else []
               | Some _ => []
               end
          else []).
Proof.
  unfold timeout_user, timeout_failure. cbv zeta.
  set (reply := TimeoutIssued member (ctx_author ctx) duration why).
  assert (Hreport : ∀ e self',
    (say ctx (TimeoutFailed e);; mret (TimeoutFailed e)) self'
    = (match ctx_send ctx (TimeoutFailed e) with
       | None => Returned (TimeoutFailed e)
       | Some e' => Raised e'
       end, self')).
  { intros e self'. unfold say, mbind, M_bind.
    by destruct (ctx_send ctx (TimeoutFailed e)). }
  destruct ((-999999999 <=? duration `div` 1440)
            && (duration `div` 1440 <=? 999999999)) eqn:Hrange; simpl negb;
    cbv iota.
  - assert (Hdelta : timedelta_minutes duration self
                     = (Returned (duration * 60000000), self)).
    { unfold timedelta_minutes. by rewrite Hrange. }
    destruct (member_timeout env member duration) as [e|] eqn:Htimeout.
    + match goal with |- context [try_except ?m _ self] =>
        assert (Hbody :
          m self = (Raised e, emit (MemberTimeout member duration) self))
      end.
      { rewrite (bind_returned _ _ _ _ _ Hdelta). by apply bind_raised. }
      rewrite (try_except_raised _ _ _ _ _ Hbody), Hreport. done.
    + assert (Hcall :
        call (MemberTimeout member duration) None self
        = (Returned tt, emit (MemberTimeout member duration) self)) by done.
      destruct (ctx_send ctx reply) as [e|] eqn:Hsend.
      * match goal with |- context [try_except ?m _ self] =>
          assert (Hbody :
            m self = (Raised e, emit (MemberTimeout member duration) self))
        end.
        { rewrite (bind_returned _ _ _ _ _ Hdelta).
          rewrite (bind_returned _ _ _ _ _ Hcall).
          apply bind_raised. unfold say. by rewrite Hsend. }
        rewrite (try_except_raised _ _ _ _ _ Hbody), Hreport. done.
      * match goal with |- context [try_except ?m _ self] =>
          assert (Hbody :
            m self
            = (Returned reply,
               (add_suspicion env member "manual_timeout" 3 now
                  (emit (MemberTimeout member duration) self)).2))
        end.
        { rewrite (bind_returned _ _ _ _ _ Hdelta).
          rewrite (bind_returned _ _ _ _ _ Hcall).
          erewrite bind_returned; [|unfold say; by rewrite Hsend].
          rewrite (bind_returned _ _ _ _ _
                     (add_suspicion_returns _ _ _ _ _ _)).
          by rewrite add_suspicion_returns. }
        rewrite (try_except_returned _ _ _ _ _ Hbody).
        rewrite add_suspicion_returns. simpl. split; [split; [done|]|].
        -- unfold lookup_record. simpl. apply lookup_insert_eq.
        -- by rewrite <- app_assoc.
  - match goal with |- context [try_except ?m _ self] =>
      assert (Hbody : m self = (Raised (Exception "OverflowError"), self))
    end.
    { apply bind_raised. unfold timedelta_minutes. by rewrite Hrange. }
    rewrite (try_except_raised _ _ _ _ _ Hbody), Hreport. simpl.
    by rewrite app_nil_r.
Qed.

(** ** Statistics *)

Lemma tally_bump t t' counts :
  tally t' (bump t counts)
  = tally t' counts + (if String.eqb t t' then 1 else 0).
Proof.
  induction counts as [|[k n] rest IH]; simpl.
  - destruct (String.eqb t t'); lia.
  - destruct (String.eqb_spec k t) as [->|Hkt]; simpl.
    + destruct (String.eqb_spec t t'); lia.
    + destruct (String.eqb_spec k t') as [->|Hkt'].
      * destruct (String.eqb_spec t t'); [congruence|lia].
      * exact IH.
Qed.

Lemma bump_keys t counts :
  NoDup (counts.*1) →
  NoDup ((bump t counts).*1)
  ∧ ∀ k, k ∈ (bump t counts).*1 ↔ k = t ∨ k ∈ counts.*1.
Proof.
  induction counts as [|[k n] rest IH]; simpl; intros Hnd.
  - split; [repeat constructor; by intros ?%elem_of_nil|]. intros k.
    rewrite list_elem_of_singleton, elem_of_nil. tauto.
  - apply NoDup_cons in Hnd as [Hk Hnd].
    destruct (String.eqb_spec k t) as [->|Hkt]; simpl.
    + split; [by apply NoDup_cons|]. intros k'.
      rewrite elem_of_cons. tauto.
    + destruct (IH Hnd) as [Hnd' Hkeys]. split.
      * apply NoDup_cons. split; [|done]. rewrite Hkeys. tauto.
      * intros k'. rewrite !elem_of_cons, Hkeys. tauto.
Qed.

Lemma tally_of_member counts k n :
  NoDup (counts.*1) → (k, n) ∈ counts → tally k counts = n.
Proof.
  induction counts as [|[k' n'] rest IH]; simpl; intros Hnd Hin.
  - by apply elem_of_nil in Hin.
  - apply NoDup_cons in Hnd as [Hk Hnd].
    apply elem_of_cons in Hin as [[= <- <-]|Hin].
    + by rewrite String.eqb_refl.
    + destruct (String.eqb_spec k' k) as [->|_]; [|by apply IH].
      destruct Hk. apply list_elem_of_fmap. by exists (k, n).
Qed.

Lemma count_types_spec events :
  NoDup ((count_types events).*1)
  ∧ (∀ t, tally t (count_types events) = occurrences t events)
  ∧ (∀ k, k ∈ (count_types events).*1 ↔ ∃ e, e ∈ events ∧ event_type e = k).
Proof.
  unfold count_types.
  induction events as [|e events IH] using rev_ind.
  - split; [constructor|]. split; [done|]. intros k. split.
    + by intros ?%elem_of_nil.
    + by intros (e & ?%elem_of_nil & _).
  - rewrite foldl_app. simpl. destruct IH as (Hnd & Htally & Hkeys).
    destruct (bump_keys (event_type e) _ Hnd) as [Hnd' Hkeys'].
    split; [done|]. split.
    + intros t. rewrite tally_bump, Htally. unfold occurrences.
      rewrite List.filter_app, length_app. simpl.
      destruct (String.eqb (event_type e) t); simpl; lia.
    + intros k. rewrite Hkeys', Hkeys. split.
      * intros [-> | (e' & He' & <-)]; [exists e|exists e'];
          (split; [|done]); rewrite elem_of_app, list_elem_of_singleton; auto.
      * intros (e' & [He'| ->%list_elem_of_singleton]%elem_of_app & <-);
          [right; by exists e'|by left].
Qed.

Lemma insert_desc_perm x l : insert_desc x l ≡ₚ x :: l.
Proof.
  induction l as [|y l IH]; simpl; [done|].
  destruct (y.2 <=? x.2); [done|]. rewrite IH. apply Permutation_swap.
Qed.

Lemma sorted_desc_perm l : sorted_desc l ≡ₚ l.
Proof.
  unfold sorted_desc. induction l as [|x l IH]; simpl; [done|].
  by rewrite insert_desc_perm, IH.
Qed.

Lemma insert_desc_descending x l :
  descending l → descending (insert_desc x l).
Proof.
  unfold descending. induction 1 as [|y l Hl IH Hy]; simpl.
  - repeat constructor.
  - destruct (Z.leb_spec y.2 x.2).
    + constructor; [by constructor|]. constructor; [done|].
      eapply Forall_impl; [exact Hy|]. simpl. intros; lia.
    + constructor; [done|]. rewrite insert_desc_perm.
      constructor; [lia|done].
Qed.

Lemma sorted_desc_descending l : descending (sorted_desc l).
Proof.
  unfold sorted_desc. induction l as [|x l IH]; simpl; [constructor|].
  by apply insert_desc_descending.
Qed.

(** X18.  [show_stats] reports the number of logged events and at most
    five event types, each once and with its exact number of events, in
    order of non-increasing count; a type that occurs in the log but is
    not shown occurs no more often than any of the five that are. *)
Theorem show_stats_top_five (self : Bot) :
  ∃ report,
    show_stats self = (Returned report, self)
    ∧ stats_total report = Z.of_nat (length (security_events self))
    ∧ (length (stats_top report) ≤ 5)%nat
    ∧ descending (stats_top report)
    ∧ NoDup ((stats_top report).*1)
    ∧ (∀ t n, (t, n) ∈ stats_top report →
              n = occurrences t (security_events self) ∧ 1 ≤ n)
    ∧ (∀ t, 1 ≤ occurrences t (security_events self) →
            t ∉ (stats_top report).*1 →
            length (stats_top report) = 5%nat
            ∧ ∀ t' n', (t', n') ∈ stats_top report →
                       occurrences t (security_events self) ≤ n').
Proof.
  eexists. split; [reflexivity|]. simpl.
  set (events := security_events self).
  set (sorted := sorted_desc (count_types events)).
  destruct (count_types_spec events) as (Hnd & Htally & Hkeys).
  pose proof (sorted_desc_perm (count_types events)) as Hperm.
  pose proof (sorted_desc_descending (count_types events)) as Hdesc.
  fold sorted in Hperm, Hdesc.
  assert (Hnd' : NoDup (sorted.*1)) by by rewrite Hperm.
  assert (Hmember : ∀ t n, (t, n) ∈ sorted →
                           n = occurrences t events ∧ 1 ≤ n).
  { intros t n Hin. rewrite Hperm in Hin.
    rewrite <- Htally, (tally_of_member _ t n Hnd Hin). split; [done|].
    rewrite <- (tally_of_member _ t n Hnd Hin), Htally.
    assert (Hk : t ∈ (count_types events).*1).
    { apply list_elem_of_fmap. by exists (t, n). }
    apply Hkeys in Hk as (e & He & <-). unfold occurrences.
    apply list_elem_of_In in He.
    assert (Hin' : In e (List.filter
                           (λ e', String.eqb (event_type e') (event_type e))
                           events)).
    { apply filter_In. split; [done|]. apply String.eqb_refl. }
    destruct (List.filter _ events); [done|]. simpl. lia. }
  rewrite <- (take_drop 5 sorted) in Hdesc, Hnd'.
  split; [done|]. split; [rewrite length_take; lia|].
  split; [by apply StronglySorted_app_1_l in Hdesc|].
  split; [rewrite fmap_app in Hnd'; by apply NoDup_app in Hnd' as [? _]|].
  split.
  { intros t n Hin. apply Hmember.
    by apply elem_of_take in Hin as (i & ?%list_elem_of_lookup_2 & _). }
  intros t Hocc Hmissing.
  assert (Hin : (t, occurrences t events) ∈ sorted).
  { assert (Hk : t ∈ (count_types events).*1).
    { apply Hkeys. unfold occurrences in Hocc.
      destruct (List.filter (λ e, String.eqb (event_type e) t) events)
        as [|e l] eqn:Hf; [simpl in Hocc; lia|].
      assert (Hin : In e (List.filter
                            (λ e, String.eqb (event_type e) t) events))
        by (rewrite Hf; by left).
      apply filter_In in Hin as [Hin He]. exists e.
      split; [by apply list_elem_of_In|by apply String.eqb_eq]. }
    apply list_elem_of_fmap in Hk as ([t' n] & -> & Hin). simpl.
    rewrite Hperm. by rewrite <- Htally, (tally_of_member _ _ n Hnd Hin). }
  rewrite <- (take_drop 5 sorted) in Hin.
  apply elem_of_app in Hin as [Hin|Hin].
  { destruct Hmissing. apply list_elem_of_fmap.
    by exists (t, occurrences t events). }
  split.
  - rewrite length_take. apply list_elem_of_lookup in Hin as [i Hi].
    apply lookup_lt_Some in Hi. rewrite length_drop in Hi. lia.
  - intros t' n' Hin'.
    exact (StronglySorted_app_1_elem_of _ _ _ _ _ Hdesc Hin' Hin).
Qed.

(** ** Best-effort alerts *)

(** X19.  [send_security_alert] never raises, whatever [channel.send]
    does, and changes neither the configuration, the event log nor the
    ledger.  It calls [channel.send] at most once, and only with a log
    channel that is configured and found; it calls [logger.error] exactly
    when that send raised. *)
Theorem alerts_are_best_effort (env : Env) (embed : Embed) (self : Bot) :
  ∃ self',
    send_security_alert env embed self = (Returned tt, self')
    ∧ config self' = config self
    ∧ security_events self' = security_events self
    ∧ suspicious_users self' = suspicious_users self
    ∧ sent (io self')
      = sent (io self)
        ++ match truthy_id (log_channel_id (config self)) with
           | Some id => if get_channel env id then [embed] else []
           | None => []
           end
    ∧ logged_errors (io self')
      = logged_errors (io self)
        ++ match truthy_id (log_channel_id (config self)) with
           | Some id =>
               if get_channel env id
               then match channel_send env id embed with
                    | Some e => [LoggerError e]
                    | None => []
                    end
               else []
           | None => []
           end.
Proof.
  rewrite send_security_alert_returns. eexists. split; [done|].
  repeat (split; [done|]). simpl. unfold logged_errors, alert_io.
  rewrite sent_app, List.filter_app.
  destruct (truthy_id (log_channel_id (config self))) as [id|]; [|done].
  destruct (get_channel env id); [|done].
  by destruct (channel_send env id embed).
Qed.
